(** * photo-sorter: a shallow embedding of [main.py]

    The script walks [unsorted_photos/], classifies every file by its
    extension, reads the capture year of images from their EXIF tags, picks
    a target folder under [sorted_photos/], drops files whose SHA-256 digest
    was already placed in that folder during the run, resolves file-name
    conflicts with a counter, and moves (or, for HEIC/HEIF, converts) the
    file.  Everything the script touches outside its own variables is made
    explicit here:

    - the file system is a finite map from path strings to file nodes (only
      regular files are tracked; directories are implicit);
    - what the image library, [os.remove], [mkdir] and [shutil.move] do with
      one file is given by the [item] that describes that file ([shutil.move]
      is not atomic: a move that fails can leave a copy behind);
    - the local variables of [sort_photos] that survive an iteration (the
      nine counters, [hashes_in_destination]) live in [run_state], together
      with the log and the number of image handles currently open.

    Python strings are modelled as [string] (characters are [ascii]). *)

From Stdlib Require Import ZArith QArith Lqa String Ascii List Lia.
From stdpp Require Import base gmap sets list strings pretty.

Local Open Scope string_scope.

(** ** Exceptions

    The Python classes the handlers of the script tell apart.
    [FileNotFoundError] and [PermissionError] are subclasses of [OSError];
    every other [OSError] is [OtherOSError]. *)

Inductive oserror : Type :=
| FileNotFoundError
| PermissionError
| OtherOSError.

Inductive exn : Type :=
| OSError (e : oserror)
| UnidentifiedImageError
| OtherException.

(** ** Strings and paths *)

Definition ascii_lower (c : ascii) : ascii :=
  let n := nat_of_ascii c in
  if (65 <=? n)%nat && (n <=? 90)%nat then ascii_of_nat (n + 32) else c.

(** [str.lower()] on ASCII text. *)
Fixpoint lower (s : string) : string :=
  match s with
  | EmptyString => EmptyString
  | String c s' => String (ascii_lower c) (lower s')
  end.

(** [x in S] for the extension sets. *)
Definition elem (x : string) (l : list string) : bool :=
  bool_decide (x ∈ l).

(** [Path / name], on the string form of paths. *)
Definition joinpath (p name : string) : string := p +:+ "/" +:+ name.
Infix "//" := joinpath (at level 40, left associativity).

(** A source path as [pathlib] presents it: the directory [os.walk] is in,
    and the file name split into [stem] and [suffix]. *)
Record Path : Type := {
  parent : string;
  stem : string;
  suffix : string
}.

(** [source_path.name] *)
Definition name (p : Path) : string := stem p +:+ suffix p.

(** [str(source_path)] *)
Definition str (p : Path) : string := parent p // name p.

(** [d in source_path.parents]: [d] is the directory of the file or one of
    its ancestors. *)
Definition in_parents (d : string) (p : Path) : bool :=
  bool_decide (d = parent p) || String.prefix (d +:+ "/") (parent p).

(** [s.startswith(t)] *)
Definition startswith (s t : string) : bool := String.prefix t s.

(** Truth value of a [str]-or-[None] variable. *)
Definition truthy (o : option string) : bool :=
  match o with
  | Some s => negb (String.eqb s "")
  | None => false
  end.

(** ** The world: files, EXIF data, and what can fail for one file *)

(** A regular file: its size ([stat().st_size]) and the hex digest
    [calculate_hash] obtains for it, [None] when it cannot be read. *)
Record fnode : Type := {
  st_size : Z;
  sha256 : option string
}.

Inductive exif_value : Type :=
| ExifStr (s : string)
| ExifOther.

(** What PIL does with the file in [get_date_taken]. *)
Inductive decode : Type :=
| OpenRaises (e : exn)
| LoadRaises (e : exn)
| GetexifRaises (e : exn)
| ExifData (exif_data : option (gmap Z exif_value)).

(** One discovered file together with the behaviour of the environment while
    it is processed: what PIL does with it, which [mkdir] raises, whether
    [os.remove] is denied, what [img.save] gives, and what the move of line
    442 ([move_exn]) and the moves into the errors folder of lines 395 and
    489 ([error_move_exn]) raise; a move that raises can have written
    ([move_leftover], [error_move_leftover]) a file at its destination. *)
Record item : Type := {
  source_path : Path;
  decoder : decode;
  mkdir_exn : string -> option exn;
  remove_denied : bool;
  save_result : exn + fnode;
  move_exn : option exn;
  error_move_exn : option exn;
  move_leftover : option fnode;
  error_move_leftover : option fnode
}.

Inductive level : Type := INFO | WARNING | ERROR.

Record counters : Type := {
  moved_count : nat;
  video_moved_count : nat;
  heic_converted_count : nat;
  no_date_count : nat;
  archive_moved_count : nat;
  deleted_non_media_count : nat;
  error_count : nat;
  skipped_count : nat;
  duplicate_deleted_count : nat
}.

Record run_state : Type := {
  fs : gmap string fnode;
  hashes_in_destination : gmap string (gset (option string));
  counts : counters;
  open_handles : nat;
  log : list level
}.

Definition set_fs (v : gmap string fnode) (st : run_state) : run_state :=
  {| fs := v; hashes_in_destination := hashes_in_destination st;
     counts := counts st; open_handles := open_handles st; log := log st |}.

Definition set_hashes (v : gmap string (gset (option string)))
    (st : run_state) : run_state :=
  {| fs := fs st; hashes_in_destination := v;
     counts := counts st; open_handles := open_handles st; log := log st |}.

Definition set_counts (v : counters) (st : run_state) : run_state :=
  {| fs := fs st; hashes_in_destination := hashes_in_destination st;
     counts := v; open_handles := open_handles st; log := log st |}.

Definition set_handles (v : nat) (st : run_state) : run_state :=
  {| fs := fs st; hashes_in_destination := hashes_in_destination st;
     counts := counts st; open_handles := v; log := log st |}.

(** [logging.info/warning/error]: the level of the record is kept, its text
    is not. *)
Definition logging (l : level) (st : run_state) : run_state :=
  {| fs := fs st; hashes_in_destination := hashes_in_destination st;
     counts := counts st; open_handles := open_handles st;
     log := log st ++ [l] |}.

Definition incr_moved (st : run_state) : run_state :=
  let c := counts st in
  set_counts {| moved_count := S (moved_count c);
     video_moved_count := video_moved_count c;
     heic_converted_count := heic_converted_count c;
     no_date_count := no_date_count c;
     archive_moved_count := archive_moved_count c;
     deleted_non_media_count := deleted_non_media_count c;
     error_count := error_count c;
     skipped_count := skipped_count c;
     duplicate_deleted_count := duplicate_deleted_count c |} st.

Definition incr_video_moved (st : run_state) : run_state :=
  let c := counts st in
  set_counts {| moved_count := moved_count c;
     video_moved_count := S (video_moved_count c);
     heic_converted_count := heic_converted_count c;
     no_date_count := no_date_count c;
     archive_moved_count := archive_moved_count c;
     deleted_non_media_count := deleted_non_media_count c;
     error_count := error_count c;
     skipped_count := skipped_count c;
     duplicate_deleted_count := duplicate_deleted_count c |} st.

Definition incr_heic_converted (st : run_state) : run_state :=
  let c := counts st in
  set_counts {| moved_count := moved_count c;
     video_moved_count := video_moved_count c;
     heic_converted_count := S (heic_converted_count c);
     no_date_count := no_date_count c;
     archive_moved_count := archive_moved_count c;
     deleted_non_media_count := deleted_non_media_count c;
     error_count := error_count c;
     skipped_count := skipped_count c;
     duplicate_deleted_count := duplicate_deleted_count c |} st.

Definition incr_no_date (st : run_state) : run_state :=
  let c := counts st in
  set_counts {| moved_count := moved_count c;
     video_moved_count := video_moved_count c;
     heic_converted_count := heic_converted_count c;
     no_date_count := S (no_date_count c);
     archive_moved_count := archive_moved_count c;
     deleted_non_media_count := deleted_non_media_count c;
     error_count := error_count c;
     skipped_count := skipped_count c;
     duplicate_deleted_count := duplicate_deleted_count c |} st.

Definition incr_archive_moved (st : run_state) : run_state :=
  let c := counts st in
  set_counts {| moved_count := moved_count c;
     video_moved_count := video_moved_count c;
     heic_converted_count := heic_converted_count c;
     no_date_count := no_date_count c;
     archive_moved_count := S (archive_moved_count c);
     deleted_non_media_count := deleted_non_media_count c;
     error_count := error_count c;
     skipped_count := skipped_count c;
     duplicate_deleted_count := duplicate_deleted_count c |} st.

Definition incr_deleted_non_media (st : run_state) : run_state :=
  let c := counts st in
  set_counts {| moved_count := moved_count c;
     video_moved_count := video_moved_count c;
     heic_converted_count := heic_converted_count c;
     no_date_count := no_date_count c;
     archive_moved_count := archive_moved_count c;
     deleted_non_media_count := S (deleted_non_media_count c);
     error_count := error_count c;
     skipped_count := skipped_count c;
     duplicate_deleted_count := duplicate_deleted_count c |} st.

Definition incr_error (st : run_state) : run_state :=
  let c := counts st in
  set_counts {| moved_count := moved_count c;
     video_moved_count := video_moved_count c;
     heic_converted_count := heic_converted_count c;
     no_date_count := no_date_count c;
     archive_moved_count := archive_moved_count c;
     deleted_non_media_count := deleted_non_media_count c;
     error_count := S (error_count c);
     skipped_count := skipped_count c;
     duplicate_deleted_count := duplicate_deleted_count c |} st.

Definition incr_skipped (st : run_state) : run_state :=
  let c := counts st in
  set_counts {| moved_count := moved_count c;
     video_moved_count := video_moved_count c;
     heic_converted_count := heic_converted_count c;
     no_date_count := no_date_count c;
     archive_moved_count := archive_moved_count c;
     deleted_non_media_count := deleted_non_media_count c;
     error_count := error_count c;
     skipped_count := S (skipped_count c);
     duplicate_deleted_count := duplicate_deleted_count c |} st.

Definition incr_duplicate_deleted (st : run_state) : run_state :=
  let c := counts st in
  set_counts {| moved_count := moved_count c;
     video_moved_count := video_moved_count c;
     heic_converted_count := heic_converted_count c;
     no_date_count := no_date_count c;
     archive_moved_count := archive_moved_count c;
     deleted_non_media_count := deleted_non_media_count c;
     error_count := error_count c;
     skipped_count := skipped_count c;
     duplicate_deleted_count := S (duplicate_deleted_count c) |} st.

(** The number of counter increments made so far. *)
Definition total (c : counters) : nat :=
  moved_count c + video_moved_count c + heic_converted_count c +
  no_date_count c + archive_moved_count c + deleted_non_media_count c +
  error_count c + skipped_count c + duplicate_deleted_count c.

(** ** File-system primitives *)

(** [p.exists()] *)
Definition exists_ (p : string) (st : run_state) : bool :=
  bool_decide (is_Some (fs st !! p)).

(** [os.remove(p)]: fails with an [OSError] when the file is gone or the
    environment denies the deletion. *)
Definition os_remove (denied : bool) (p : string) (m : gmap string fnode)
    : oserror + gmap string fnode :=
  match m !! p with
  | None => inl FileNotFoundError
  | Some _ => if denied then inl PermissionError else inr (delete p m)
  end.

(** What a [shutil.move] that raises [e] leaves at its destination.
    [shutil.move] is [os.rename] and, when that fails, a copy followed by
    [os.unlink(src)]: when the copy or the unlink fails, the copy (or a part
    of it) already sits at the destination.  [FileNotFoundError] comes from
    [os.rename] or from opening the source or the destination directory:
    nothing has been written then. *)
Definition failed_move_leaves (e : exn) (leftover : option fnode)
    : option fnode :=
  match e with
  | OSError FileNotFoundError => None
  | _ => leftover
  end.

(** [shutil.move(src, dst)]: the node leaves [src] and appears at [dst].
    When the call raises, the source stays, and the files it leaves are
    returned with the exception. *)
Definition shutil_move (fault : option exn) (leftover : option fnode)
    (src dst : string) (m : gmap string fnode)
    : exn * gmap string fnode + gmap string fnode :=
  match m !! src with
  | None => inl (OSError FileNotFoundError, m)
  | Some nd =>
      match fault with
      | Some e =>
          inl (e, match failed_move_leaves e leftover with
                  | Some copy => <[dst := copy]> m
                  | None => m
                  end)
      | None => inr (<[dst := nd]> (delete src m))
      end
  end.

(** [with Image.open(src) as img: img.save(dst, "JPEG", quality=95)].
    When saving fails, Pillow removes the file it created: nothing is
    left at [dst]. *)
Definition image_save (res : exn + fnode) (src dst : string)
    (m : gmap string fnode) : exn + gmap string fnode :=
  match m !! src with
  | None => inl (OSError FileNotFoundError)
  | Some _ =>
      match res with
      | inl e => inl e
      | inr jpeg => inr (<[dst := jpeg]> m)
      end
  end.

(** [d.setdefault(k, set())]: the set stored under [k], and the dictionary
    with an empty set stored there when [k] was absent. *)
Definition setdefault (k : string) (d : gmap string (gset (option string)))
    : gset (option string) * gmap string (gset (option string)) :=
  match d !! k with
  | Some s => (s, d)
  | None => (∅, <[k := ∅]> d)
  end.

(** [d.setdefault(k, set()).add(h)] *)
Definition setdefault_add (k : string) (h : option string)
    (d : gmap string (gset (option string)))
    : gmap string (gset (option string)) :=
  let '(s, d') := setdefault k d in <[k := {[h]} ∪ s]> d'.

(** ** The script *)

Section Sorter.

(** [SCRIPT_DIR = Path(__file__).parent] *)
Variable SCRIPT_DIR : string.

Definition SOURCE_DIR : string := SCRIPT_DIR // "unsorted_photos".
Definition DEST_DIR : string := SCRIPT_DIR // "sorted_photos".
Definition NO_DATE_DIR : string := DEST_DIR // "no_date".
Definition ARCHIVES_DIR : string := DEST_DIR // "archives".
Definition ERROR_DIR : string := DEST_DIR // "errors".

Definition IMAGE_EXTENSIONS : list string :=
  [".jpg"; ".jpeg"; ".png"; ".gif"; ".tiff"; ".bmp"; ".heic"; ".heif"].
Definition VIDEO_EXTENSIONS : list string :=
  [".mp4"; ".avi"; ".mov"; ".wmv"; ".mkv"; ".flv"; ".mpeg"; ".mpg"; ".m4v"].
Definition HEIC_EXTENSIONS : list string := [".heic"; ".heif"].
Definition ARCHIVE_EXTENSIONS : list string :=
  [".zip"; ".rar"; ".7z"; ".tar"; ".gz"; ".bz2"; ".xz";
   ".tar.gz"; ".tar.bz2"; ".tar.xz"].

Definition Qlt_bool (x y : Q) : bool := negb (Qle_bool y x).

(** [get_file_size_category(file_path)].  [stat()] raises when the file is
    not there; the handler logs a warning and answers ["unknown_size"].
    [size_bytes / (1024 * 1024)] is taken over the rationals: the float
    division by a power of two is exact for every size below 2^53 bytes and
    monotone above, and the five thresholds are exact floats, so the
    comparisons come out the same. *)
Definition get_file_size_category (file_path : string) (st : run_state)
    : string * run_state :=
  match fs st !! file_path with
  | Some nd =>
      let size_bytes := st_size nd in
      let size_mb := (inject_Z size_bytes / inject_Z (1024 * 1024))%Q in
      if Qlt_bool size_mb 0.5 then ("tiny_under_0.5MB", st)
      else if Qlt_bool size_mb 1 then ("small_0.5-1MB", st)
      else if Qlt_bool size_mb 2 then ("medium_1-2MB", st)
      else if Qlt_bool size_mb 5 then ("large_2-5MB", st)
      else if Qlt_bool size_mb 10 then ("xlarge_5-10MB", st)
      else ("huge_over_10MB", st)
  | None => ("unknown_size", logging WARNING st)
  end.

(** The test applied to one tag value in [get_date_taken]:
    [date_str and isinstance(date_str, str) and len(date_str) >= 10], then
    [date_str[4] == ":" and date_str[7] == ":"]; the year is
    [date_str[:4]]. *)
Definition year_of_tag (v : option exif_value) : option string :=
  match v with
  | Some (ExifStr date_str) =>
      if truthy (Some date_str) && (10 <=? String.length date_str)%nat then
        if bool_decide (get 4 date_str = Some ":"%char)
           && bool_decide (get 7 date_str = Some ":"%char)
        then Some (substring 0 4 date_str)
        else None
      else None
  | _ => None
  end.

(** Lines 112-124: [if exif_data:] read tag 36867 (DateTimeOriginal), and
    [if not year:] fall back to tag 306 (DateTime). *)
Definition year_from_exif (exif_data : option (gmap Z exif_value))
    : option string :=
  match exif_data with
  | Some d =>
      if bool_decide (d = ∅) then None
      else
        let year := year_of_tag (d !! 36867%Z) in
        if negb (truthy year) then year_of_tag (d !! 306%Z) else year
  | None => None
  end.

(** [Image.open(file_path)]: a handle is opened unless the call raises. *)
Definition image_open (file_path : string) (dec : decode) (st : run_state)
    : exn + run_state :=
  match fs st !! file_path with
  | None => inl (OSError FileNotFoundError)
  | Some _ =>
      match dec with
      | OpenRaises e => inl e
      | _ => inr (set_handles (S (open_handles st)) st)
      end
  end.

(** [img.load()] *)
Definition image_load (dec : decode) : option exn :=
  match dec with
  | LoadRaises e => Some e
  | _ => None
  end.

(** [img._getexif()] *)
Definition image_getexif (dec : decode) : exn + option (gmap Z exif_value) :=
  match dec with
  | GetexifRaises e => inl e
  | ExifData d => inr d
  | _ => inr None
  end.

(** [img.close()] *)
Definition image_close (st : run_state) : run_state :=
  set_handles (pred (open_handles st)) st.

(** The three [except] clauses of [get_date_taken]. *)
Definition get_date_taken_except (file_ext : string) (e : exn)
    (st : run_state) : option string * run_state :=
  match e with
  | OSError FileNotFoundError => (Some "error", logging WARNING st)
  | UnidentifiedImageError =>
      (None, if elem file_ext IMAGE_EXTENSIONS then logging WARNING st else st)
  | _ => (None, logging ERROR st)
  end.

(** [get_date_taken(file_path)]: the year, ["error"], or [None]. *)
Definition get_date_taken (file_path : Path) (dec : decode) (st : run_state)
    : option string * run_state :=
  let file_ext := lower (suffix file_path) in
  if elem file_ext IMAGE_EXTENSIONS then
    match image_open (str file_path) dec st with
    | inl e => get_date_taken_except file_ext e st
    | inr st1 =>
        match image_load dec with
        | Some e => get_date_taken_except file_ext e st1
        | None =>
            match image_getexif dec with
            | inl e => get_date_taken_except file_ext e st1
            | inr exif_data =>
                let year := year_from_exif exif_data in
                let st2 := image_close st1 in
                if truthy year then (year, st2) else (None, st2)
            end
        end
    end
  else (None, st).

(** [calculate_hash(file_path)]: the digest, or [None] with an error logged
    when the file cannot be read. *)
Definition calculate_hash (file_path : string) (st : run_state)
    : option string * run_state :=
  match fs st !! file_path with
  | Some nd =>
      match sha256 nd with
      | Some h => (Some h, st)
      | None => (None, logging ERROR st)
      end
  | None => (None, logging ERROR st)
  end.

(** ** [sort_photos]: one iteration of the loop over the discovered files *)

Inductive media_type : Type := unknown | image | video | archive | other.

(** How a piece of the loop body ends: normally (this includes every
    [continue]), with an exception on its way out, or never (a [while] loop
    of the script that would not stop). *)
Inductive result : Type :=
| Done (st : run_state)
| Raised (e : exn) (st : run_state)
| Hangs.

(** Enough iterations for the [while ... exists()] loops: see
    [resolve_conflict_terminates] and [error_dest_loop_terminates]. *)
Definition loop_fuel (st : run_state) : nat := S (S (size (fs st))).

(** The [while dest_path_final.exists()] loops: lines 316-343 for the
    converted JPEG ([ext] is [".jpg"]) and lines 408-436 for the generic move
    ([ext] is [source_path.suffix]).  The answer is the final value of
    [dest_path_final] ([None] signals a duplicate) and the state. *)
Fixpoint resolve_conflict (fuel : nat) (it : item) (ext target_folder : string)
    (current_file_hash : option string) (dest_path_final : string)
    (counter : nat) (st : run_state) : option (option string * run_state) :=
  match fuel with
  | O => None
  | S fuel' =>
      if exists_ dest_path_final st then
        let '(existing_file_hash, st) := calculate_hash dest_path_final st in
        if truthy existing_file_hash
           && bool_decide (current_file_hash = existing_file_hash)
        then
          let st := logging WARNING st in
          match os_remove (remove_denied it) (str (source_path it)) (fs st) with
          | inr m => Some (None, incr_duplicate_deleted (set_fs m st))
          | inl _ => Some (None, incr_error (logging ERROR st))
          end
        else
          let new_name :=
            stem (source_path it) +:+ "_" +:+ pretty counter +:+ ext in
          resolve_conflict fuel' it ext target_folder current_file_hash
            (target_folder // new_name) (counter + 1) (logging WARNING st)
      else Some (Some dest_path_final, st)
  end.

(** The [while error_dest.exists()] loop of the last handler (lines
    485-488). *)
Fixpoint error_dest_loop (fuel : nat) (p : Path) (error_dest : string)
    (counter : nat) (st : run_state) : option string :=
  match fuel with
  | O => None
  | S fuel' =>
      if exists_ error_dest st then
        let new_name := stem p +:+ "_" +:+ pretty counter +:+ suffix p in
        error_dest_loop fuel' p (ERROR_DIR // new_name) (counter + 1) st
      else Some error_dest
  end.

(** Lines 377-382 and 448-459: which "moved" counter a placed file bumps. *)
Definition count_move (media : media_type) (target_folder : string)
    (st : run_state) : run_state :=
  match media with
  | video =>
      if startswith target_folder NO_DATE_DIR then st
      else if bool_decide (target_folder ≠ ERROR_DIR) then incr_video_moved st
      else st
  | image =>
      if startswith target_folder NO_DATE_DIR then st
      else if bool_decide (target_folder ≠ ERROR_DIR) then incr_moved st
      else st
  | _ => st
  end.

(** Lines 310-403: the HEIC/HEIF branch. *)
Definition convert_heic (it : item) (target_folder : string)
    (current_file_hash : option string) (st : run_state) : result :=
  let src := source_path it in
  let output_filename := stem src +:+ ".jpg" in
  match resolve_conflict (loop_fuel st) it ".jpg" target_folder
          current_file_hash (target_folder // output_filename) 1 st with
  | None => Hangs
  | Some (None, st) => Done st
  | Some (Some dest_path_final, st) =>
      let st := logging INFO st in
      match image_save (save_result it) (str src) dest_path_final (fs st) with
      | inr m =>
          let st := incr_heic_converted (set_fs m st) in
          let st :=
            match os_remove (remove_denied it) (str src) (fs st) with
            | inr m' => set_fs m' st
            | inl _ => logging ERROR st
            end in
          let st :=
            set_hashes (setdefault_add target_folder current_file_hash
                          (hashes_in_destination st)) st in
          Done (count_move image target_folder st)
      | inl convert_e =>
          let st := incr_error (logging ERROR st) in
          let error_dest := ERROR_DIR // name src in
          match shutil_move (error_move_exn it) (error_move_leftover it)
                  (str src) error_dest (fs st) with
          | inr m => Done (logging INFO (set_fs m st))
          | inl (move_e, m) => Done (logging ERROR (set_fs m st))
          end
      end
  end.

(** Lines 405-466: the generic move. *)
Definition generic_move (it : item) (media : media_type)
    (target_folder : string) (current_file_hash : option string)
    (st : run_state) : result :=
  let src := source_path it in
  match resolve_conflict (loop_fuel st) it (suffix src) target_folder
          current_file_hash (target_folder // name src) 1 st with
  | None => Hangs
  | Some (None, st) => Done st
  | Some (Some dest_path_final, st) =>
      match shutil_move (move_exn it) (move_leftover it) (str src)
              dest_path_final (fs st) with
      | inl (e, m) => Raised e (set_fs m st)
      | inr m =>
          let st := logging INFO (set_fs m st) in
          let st := count_move media target_folder st in
          if truthy current_file_hash then
            Done (set_hashes (setdefault_add target_folder current_file_hash
                                (hashes_in_destination st)) st)
          else Done st
      end
  end.

(** Lines 309-310: HEIC/HEIF images are converted, everything else is
    moved. *)
Definition place (it : item) (media : media_type) (file_ext : string)
    (target_folder : string) (current_file_hash : option string)
    (st : run_state) : result :=
  match media with
  | image =>
      if elem file_ext HEIC_EXTENSIONS
      then convert_heic it target_folder current_file_hash st
      else generic_move it media target_folder current_file_hash st
  | _ => generic_move it media target_folder current_file_hash st
  end.

(** Lines 276-307: create the folder, hash the source, reroute unhashable
    files to the errors folder, drop files whose digest was already placed
    in the folder during this run. *)
Definition action (it : item) (media : media_type) (file_ext : string)
    (target_folder : option string) (st : run_state) : result :=
  match target_folder with
  | None => Done st
  | Some target_folder =>
      match mkdir_exn it target_folder with
      | Some e => Raised e st
      | None =>
          let src := source_path it in
          let '(current_file_hash, st) := calculate_hash (str src) st in
          match current_file_hash with
          | None =>
              let st := logging WARNING st in
              let target_folder := ERROR_DIR in
              match mkdir_exn it target_folder with
              | Some e => Raised e st
              | None =>
                  place it media file_ext target_folder current_file_hash
                    (incr_error st)
              end
          | Some h =>
              let '(target_hashes, d) :=
                setdefault target_folder (hashes_in_destination st) in
              let st := set_hashes d st in
              if bool_decide (Some h ∈ target_hashes) then
                let st := logging WARNING st in
                match os_remove (remove_denied it) (str src) (fs st) with
                | inr m => Done (incr_duplicate_deleted (set_fs m st))
                | inl _ => Done (incr_error (logging ERROR st))
                end
              else place it media file_ext target_folder current_file_hash st
          end
      end
  end.

(** Lines 254-273: the target folder of an image or a video. *)
Definition determine_target (it : item) (media : media_type)
    (year_or_status : option string) (target_folder : option string)
    (st : run_state) : option string * run_state :=
  match media with
  | image | video =>
      if bool_decide (year_or_status = Some "error") then
        (Some ERROR_DIR, logging WARNING (incr_error st))
      else if truthy year_or_status then
        (Some (DEST_DIR // default "" year_or_status), logging INFO st)
      else
        let '(size_category, st) :=
          get_file_size_category (str (source_path it)) st in
        (Some (NO_DATE_DIR // size_category), logging INFO (incr_no_date st))
  | _ => (target_folder, st)
  end.

(** Where the classification of lines 216-273 leaves the iteration: at the
    action of line 275 with a media type and a target folder, or finished
    (the [continue] statements of the non-media branch). *)
Inductive classified : Type :=
| Media (media : media_type) (target_folder : option string) (st : run_state)
| Finished (st : run_state).

(** Lines 216-273: media type, date, target folder. *)
Definition classify (it : item) (st : run_state) : classified :=
  let src := source_path it in
  let file_ext := lower (suffix src) in
  if elem file_ext IMAGE_EXTENSIONS then
    let '(year_or_status, st) := get_date_taken src (decoder it) st in
    let '(target_folder, st) :=
      determine_target it image year_or_status None st in
    Media image target_folder st
  else if elem file_ext VIDEO_EXTENSIONS then
    let '(target_folder, st) := determine_target it video None None st in
    Media video target_folder st
  else if elem file_ext ARCHIVE_EXTENSIONS then
    let st := logging INFO (incr_archive_moved st) in
    let '(target_folder, st) :=
      determine_target it archive None (Some ARCHIVES_DIR) st in
    Media archive target_folder st
  else
    match os_remove (remove_denied it) (str src) (fs st) with
    | inr m => Finished (logging INFO (incr_deleted_non_media (set_fs m st)))
    | inl _ => Finished (incr_error (logging ERROR st))
    end.

(** Lines 208-466: the body of the [try] statement. *)
Definition try_body (it : item) (st : run_state) : result :=
  let src := source_path it in
  if in_parents DEST_DIR src then Done (incr_skipped (logging INFO st))
  else
    match classify it st with
    | Finished st => Done st
    | Media media target_folder st =>
        action it media (lower (suffix src)) target_folder st
    end.

(** Lines 468-492: the three [except] clauses of the loop body.  The move in
    the last clause is not protected: what it raises leaves [sort_photos]. *)
Definition handlers (it : item) (e : exn) (st : run_state) : result :=
  let src := source_path it in
  match e with
  | OSError FileNotFoundError => Done (incr_skipped (logging WARNING st))
  | OSError PermissionError => Done (incr_error (logging ERROR st))
  | _ =>
      let st := incr_error (logging ERROR st) in
      if exists_ (str src) st then
        match error_dest_loop (loop_fuel st) src (ERROR_DIR // name src) 1 st with
        | None => Hangs
        | Some error_dest =>
            match shutil_move (error_move_exn it) (error_move_leftover it)
                    (str src) error_dest (fs st) with
            | inr m => Done (logging INFO (set_fs m st))
            | inl (e', m) => Raised e' (set_fs m st)
            end
        end
      else Done st
  end.

(** One iteration of [for filename in files]. *)
Definition process_file (it : item) (st : run_state) : result :=
  match try_body it st with
  | Done st' => Done st'
  | Raised e st' => handlers it e st'
  | Hangs => Hangs
  end.

(** The loops over [os.walk(SOURCE_DIR)], on the files in the order they are
    discovered. *)
Fixpoint walk (files : list item) (st : run_state) : result :=
  match files with
  | [] => Done st
  | it :: rest =>
      match process_file it st with
      | Done st' => walk rest st'
      | r => r
      end
  end.

Definition initial_state (m : gmap string fnode) : run_state :=
  {| fs := m; hashes_in_destination := ∅;
     counts := {| moved_count := 0; video_moved_count := 0;
                  heic_converted_count := 0; no_date_count := 0;
                  archive_moved_count := 0; deleted_non_media_count := 0;
                  error_count := 0; skipped_count := 0;
                  duplicate_deleted_count := 0 |};
     open_handles := 0; log := [] |}.

(** [sort_photos()] on a file system [m]; [source_is_dir] is
    [SOURCE_DIR.is_dir()]. *)
Definition sort_photos (m : gmap string fnode) (source_is_dir : bool)
    (files : list item) : result :=
  let st := logging INFO (logging INFO (initial_state m)) in
  if negb source_is_dir then Done (logging ERROR st)
  else
    match walk files st with
    | Done st' => Done (Nat.iter 12 (logging INFO) st')
    | r => r
    end.

(** ** Vocabulary of the statements *)

(** The tag value [v] is the string [date_str], at least 10 characters long
    with a colon at indices 4 and 7. *)
Definition accepted (v : option exif_value) (date_str : string) : Prop :=
  v = Some (ExifStr date_str) /\ 10 <= String.length date_str /\
  get 4 date_str = Some ":"%char /\ get 7 date_str = Some ":"%char.

(** Decoding the file raises [e], at whichever of the three calls. *)
Definition decode_raises (dec : decode) (e : exn) : Prop :=
  dec = OpenRaises e \/ dec = LoadRaises e \/ dec = GetexifRaises e.

(** The six size tiers. *)
Definition size_tiers : list string :=
  ["tiny_under_0.5MB"; "small_0.5-1MB"; "medium_1-2MB"; "large_2-5MB";
   "xlarge_5-10MB"; "huge_over_10MB"].

(** File size in MB, as the script computes it. *)
Definition size_in_mb (nd : fnode) : Q :=
  (inject_Z (st_size nd) / inject_Z (1024 * 1024))%Q.

(** The [k]-th destination tried for one file: the desired one first, then
    the folder joined with [stem_k] and the extension. *)
Definition candidate (it : item) (ext target_folder first : string) (k : nat)
    : string :=
  match k with
  | O => first
  | S _ => target_folder // (stem (source_path it) +:+ "_" +:+ pretty k +:+ ext)
  end.

(** The test of the conflict loops on the file found at [p]:
    [existing_file_hash and current_file_hash == existing_file_hash]. *)
Definition fingerprint_match (current_file_hash : option string) (p : string)
    (st : run_state) : bool :=
  let existing_file_hash := (calculate_hash p st).1 in
  truthy existing_file_hash
  && bool_decide (current_file_hash = existing_file_hash).

(** How a conflict loop that stopped at candidate [d] left things, starting
    from [st]: [d] is free and nothing changed but the log, or [d] holds the
    content of the source and the source was deleted as a duplicate (or, when
    the deletion failed, an error was counted). *)
Definition resolved (it : item) (current_file_hash : option string)
    (d : string) (st : run_state) (r : option string) (st' : run_state)
    : Prop :=
  hashes_in_destination st' = hashes_in_destination st /\
  ((exists_ d st = false /\ r = Some d /\
    fs st' = fs st /\ counts st' = counts st)
   \/
   (exists_ d st = true /\ fingerprint_match current_file_hash d st = true /\
    r = None /\
    match os_remove (remove_denied it) (str (source_path it)) (fs st) with
    | inr m => fs st' = m /\ counts st' = counts (incr_duplicate_deleted st)
    | inl _ => fs st' = fs st /\ counts st' = counts (incr_error st)
    end)).

(** The digest [x] is in the set stored for folder [B]. *)
Definition recorded (d : gmap string (gset (option string))) (B : string)
    (x : option string) : Prop :=
  exists s, d !! B = Some s /\ x ∈ s.

(** Nothing recorded is forgotten between two states. *)
Definition hashes_grow (st st' : run_state) : Prop :=
  forall B x, recorded (hashes_in_destination st) B x ->
              recorded (hashes_in_destination st') B x.

(** No path that was free in [st] is taken in [st']. *)
Definition no_new_files (st st' : run_state) : Prop :=
  forall p, fs st !! p = None -> fs st' !! p = None.

(** What is known of the state [st'] in which placing a file with digest
    [cur] into folder [tf] ended, from [st]: the counters only grow; an
    image bound for a folder that is neither under [no_date] nor the errors
    folder has been counted; and either no new file appeared, or an error was
    counted, or the digest (when it is a non-empty string) is now recorded
    for the folder. *)
Definition placement (media : media_type) (tf : string)
    (cur : option string) (st st' : run_state) : Prop :=
  hashes_grow st st' /\
  error_count (counts st) <= error_count (counts st') /\
  total (counts st) <= total (counts st') /\
  (media = image -> startswith tf NO_DATE_DIR = false -> tf <> ERROR_DIR ->
   total (counts st) < total (counts st')) /\
  ((no_new_files st st' /\ total (counts st) < total (counts st')) \/
   error_count (counts st) < error_count (counts st') \/
   (truthy cur = true -> recorded (hashes_in_destination st') tf cur)).

(** The [k]-th destination the last handler tries in the errors folder. *)
Definition error_candidate (it : item) : nat -> string :=
  candidate it (suffix (source_path it)) ERROR_DIR
    (ERROR_DIR // name (source_path it)).

(** The size tier by plain byte counts: 0.5, 1, 2, 5 and 10 MB are 524288,
    1048576, 2097152, 5242880 and 10485760 bytes. *)
Definition size_category_of_bytes (size_bytes : Z) : string :=
  if (size_bytes <? 524288)%Z then "tiny_under_0.5MB"
  else if (size_bytes <? 1048576)%Z then "small_0.5-1MB"
  else if (size_bytes <? 2097152)%Z then "medium_1-2MB"
  else if (size_bytes <? 5242880)%Z then "large_2-5MB"
  else if (size_bytes <? 10485760)%Z then "xlarge_5-10MB"
  else "huge_over_10MB".

(** [img.load()] or [img._getexif()] raises. *)
Definition raises_after_open (dec : decode) : bool :=
  match dec with
  | LoadRaises _ | GetexifRaises _ => true
  | _ => false
  end.

(** The paths that processing [it] can delete or replace: its own source
    and, for a HEIC/HEIF file whose conversion fails, the path of its name in
    the errors folder. *)
Definition may_replace (it : item) (p : string) : Prop :=
  p = str (source_path it) \/
  (elem (lower (suffix (source_path it))) HEIC_EXTENSIONS = true /\
   (exists e, save_result it = inl e) /\
   p = ERROR_DIR // name (source_path it)).

(** Every file of [m] that [it] may not replace is in [m'] as it was. *)
Definition keeps (it : item) (m m' : gmap string fnode) : Prop :=
  forall p x, ~ may_replace it p -> m !! p = Some x -> m' !! p = Some x.

(** A target folder for which [count_move] leaves the video counter alone:
    the errors folder, or a path that starts with the no-date folder. *)
Definition uncounted_folder (tf : string) : Prop :=
  tf = ERROR_DIR \/ startswith tf NO_DATE_DIR = true.

(** The files [m'] in which a part of the loop body raised [e], from [m]:
    they are the same, or a move that failed after copying left a file at a
    path that was free, the source [src] being still there. *)
Definition left_behind (src : string) (e : exn) (m m' : gmap string fnode)
    : Prop :=
  m' = m \/
  (e <> OSError FileNotFoundError /\ is_Some (m !! src) /\
   exists d copy, m !! d = None /\ m' = <[d := copy]> m).

(** ** Example files

    Concrete files under [/srv/unsorted_photos], used after the general
    statements to run the model. *)

Definition example_item (stem_ suffix_ : string) (dec : decode) : item :=
  {| source_path := {| parent := "/srv/unsorted_photos";
                       stem := stem_; suffix := suffix_ |};
     decoder := dec;
     mkdir_exn := fun _ => None;
     remove_denied := false;
     save_result := inr {| st_size := 2048; sha256 := Some "9f2c" |};
     move_exn := None;
     error_move_exn := None;
     move_leftover := None;
     error_move_leftover := None |}.

Definition with_remove_denied (it : item) : item :=
  {| source_path := source_path it; decoder := decoder it;
     mkdir_exn := mkdir_exn it; remove_denied := true;
     save_result := save_result it; move_exn := move_exn it;
     error_move_exn := error_move_exn it;
     move_leftover := move_leftover it;
     error_move_leftover := error_move_leftover it |}.

Definition with_move_exn (e : exn) (it : item) : item :=
  {| source_path := source_path it; decoder := decoder it;
     mkdir_exn := mkdir_exn it; remove_denied := remove_denied it;
     save_result := save_result it; move_exn := Some e;
     error_move_exn := error_move_exn it;
     move_leftover := move_leftover it;
     error_move_leftover := error_move_leftover it |}.


(** A move that fails after the copy was written. *)
Definition with_move_leftover (copy : fnode) (it : item) : item :=
  {| source_path := source_path it; decoder := decoder it;
     mkdir_exn := mkdir_exn it; remove_denied := remove_denied it;
     save_result := save_result it; move_exn := move_exn it;
     error_move_exn := error_move_exn it;
     move_leftover := Some copy;
     error_move_leftover := error_move_leftover it |}.

Definition with_mkdir_exn (e : exn) (it : item) : item :=
  {| source_path := source_path it; decoder := decoder it;
     mkdir_exn := fun _ => Some e; remove_denied := remove_denied it;
     save_result := save_result it; move_exn := move_exn it;
     error_move_exn := error_move_exn it;
     move_leftover := move_leftover it;
     error_move_leftover := error_move_leftover it |}.

Definition exif_2021 : gmap Z exif_value :=
  {[ 36867%Z := ExifStr "2021:06:15 10:00:00" ]}.

(** The state a [result] carries. *)
Definition state_of (r : result) : run_state :=
  match r with
  | Done st | Raised _ st => st
  | Hangs => initial_state ∅
  end.

Definition classified_state (c : classified) : run_state :=
  match c with
  | Media _ _ st | Finished st => st
  end.

(** A dated photo, a copy of it under another name, a HEIC photo, a clip,
    an archive and a file PIL cannot identify; in the 2021 folder, another
    photo called [beach.jpg] and an unreadable [beach_1.jpg]. *)
Definition example_files : gmap string fnode :=
  {[ "/srv/unsorted_photos/beach.jpg" :=
       {| st_size := 300000; sha256 := Some "a1b2" |};
     "/srv/unsorted_photos/beach_copy.jpg" :=
       {| st_size := 300000; sha256 := Some "a1b2" |};
     "/srv/unsorted_photos/party.heic" :=
       {| st_size := 3000000; sha256 := Some "c3d4" |};
     "/srv/unsorted_photos/clip.mp4" :=
       {| st_size := 700000; sha256 := Some "e5f6" |};
     "/srv/unsorted_photos/backup.zip" :=
       {| st_size := 900; sha256 := Some "0a0b" |};
     "/srv/unsorted_photos/broken.png" :=
       {| st_size := 1000; sha256 := Some "7788" |};
     "/srv/sorted_photos/2021/beach.jpg" :=
       {| st_size := 123456; sha256 := Some "ffff" |};
     "/srv/sorted_photos/2021/beach_1.jpg" :=
       {| st_size := 10; sha256 := None |} ]}.

Definition example_state : run_state := initial_state example_files.

Definition beach : item := example_item "beach" ".jpg" (ExifData (Some exif_2021)).
Definition beach_copy : item :=
  example_item "beach_copy" ".jpg" (ExifData (Some exif_2021)).
Definition party : item := example_item "party" ".heic" (ExifData (Some exif_2021)).
Definition clip : item := example_item "clip" ".mp4" (ExifData None).
Definition backup : item := example_item "backup" ".zip" (ExifData None).
Definition broken : item :=
  example_item "broken" ".png" (OpenRaises UnidentifiedImageError).
Definition truncated : item :=
  example_item "beach" ".jpg" (LoadRaises (OSError OtherOSError)).

(** The same files with a text file and a photo that cannot be read. *)
Definition example_files_2 : gmap string fnode :=
  <["/srv/unsorted_photos/notes.txt" :=
      {| st_size := 120; sha256 := Some "1234" |}]>
    (<["/srv/unsorted_photos/locked.jpg" :=
         {| st_size := 4000000; sha256 := None |}]> example_files).

Definition example_state_2 : run_state := initial_state example_files_2.

Definition notes : item := example_item "notes" ".txt" (ExifData None).
Definition locked : item := example_item "locked" ".jpg" (ExifData None).

(** [party.heic] as the HEIF plugin presents it: the image opens and loads,
    and [img._getexif()] raises [AttributeError]. *)
Definition party_heif : item :=
  example_item "party" ".heic" (GetexifRaises OtherException).


(** [clip.mp4] when its folder is read-only and the destination is on
    another disk: [shutil.move] copies the file and the [os.unlink] of the
    source is denied. *)
Definition clip_in_locked_folder : item :=
  with_move_leftover {| st_size := 700000; sha256 := Some "e5f6" |}
    (with_move_exn (OSError PermissionError) clip).

(** * Properties *)

(** ** Strings *)

Lemma append_nil (s : string) : "" +:+ s = s.
Proof. reflexivity. Qed.

Lemma append_cons (c : ascii) (s1 s2 : string) :
  String c s1 +:+ s2 = String c (s1 +:+ s2).
Proof. reflexivity. Qed.

Lemma length_append (s1 s2 : string) :
  String.length (s1 +:+ s2) = String.length s1 + String.length s2.
Proof.
  induction s1 as [|c s1 IH]; [reflexivity|].
  rewrite append_cons. simpl. now rewrite IH.
Qed.

Lemma append_inv_tail (t s1 s2 : string) :
  s1 +:+ t = s2 +:+ t -> s1 = s2.
Proof.
  revert s2; induction s1 as [|c s1 IH]; intros [|c' s2] H.
  - reflexivity.
  - apply (f_equal String.length) in H. rewrite append_nil, length_append in H.
    simpl in H. lia.
  - apply (f_equal String.length) in H. rewrite append_nil, length_append in H.
    simpl in H. lia.
  - rewrite !append_cons in H. injection H as -> H. f_equal. now apply IH.
Qed.

Lemma prefix_append_cancel (a b c : string) :
  String.prefix (a +:+ b) (a +:+ c) = String.prefix b c.
Proof.
  induction a as [|x a IH]; [reflexivity|].
  rewrite !append_cons. simpl.
  destruct (ascii_dec x x); [exact IH | congruence].
Qed.

Lemma prefix_length (s1 s2 : string) :
  String.prefix s1 s2 = true -> String.length s1 <= String.length s2.
Proof.
  revert s2; induction s1 as [|c s1 IH]; intros [|c' s2]; simpl;
    try lia; try discriminate.
  destruct (ascii_dec c c'); [|discriminate].
  intros H; apply IH in H; lia.
Qed.

Lemma length_substring_0 (n : nat) (s : string) :
  n <= String.length s -> String.length (substring 0 n s) = n.
Proof.
  revert s; induction n as [|n IH]; intros [|c s]; simpl; try lia.
  intros H. rewrite IH; lia.
Qed.

Lemma truthy_length (s : string) :
  truthy (Some s) = true <-> 0 < String.length s.
Proof. destruct s; simpl; split; (lia || discriminate || reflexivity). Qed.

(** The renamed candidates of one file are pairwise different. *)
Lemma new_name_inj (stem_ ext : string) (i j : nat) :
  stem_ +:+ "_" +:+ pretty i +:+ ext = stem_ +:+ "_" +:+ pretty j +:+ ext ->
  i = j.
Proof.
  intros H. apply String.app_inj in H. apply (String.app_inj "_") in H.
  apply append_inv_tail in H. now apply pretty_nat_inj in H.
Qed.

Lemma joinpath_inj (d n1 n2 : string) : d // n1 = d // n2 -> n1 = n2.
Proof.
  unfold joinpath. intros H. apply String.app_inj in H.
  now apply (String.app_inj "/") in H.
Qed.

(** A year folder is neither inside [no_date] nor the errors folder. *)
Lemma year_folder_not_no_date (y : string) :
  String.length y = 4 -> startswith (DEST_DIR // y) NO_DATE_DIR = false.
Proof.
  intros Hy. unfold startswith, NO_DATE_DIR, joinpath.
  rewrite prefix_append_cancel, (prefix_append_cancel "/").
  destruct (String.prefix "no_date" y) eqn:E; [|reflexivity].
  apply prefix_length in E. simpl in E. lia.
Qed.

Lemma year_folder_not_errors (y : string) :
  String.length y = 4 -> DEST_DIR // y <> ERROR_DIR.
Proof.
  intros Hy H. unfold ERROR_DIR in H. apply joinpath_inj in H. now subst y.
Qed.

(** ** Date extraction *)

Lemma year_of_tag_Some (v : option exif_value) (y : string) :
  year_of_tag v = Some y <->
  exists date_str, accepted v date_str /\ y = substring 0 4 date_str.
Proof.
  unfold year_of_tag, accepted. split.
  - destruct v as [[s|]|]; try discriminate.
    destruct (truthy (Some s) && (10 <=? String.length s)%nat) eqn:E1;
      [|discriminate].
    destruct (bool_decide (get 4 s = Some ":"%char)
              && bool_decide (get 7 s = Some ":"%char)) eqn:E2; [|discriminate].
    intros [= <-]. exists s.
    apply andb_true_iff in E1 as [_ E1]. apply Nat.leb_le in E1.
    apply andb_true_iff in E2 as [E2 E3].
    apply bool_decide_eq_true in E2, E3. auto.
  - intros (s & (-> & Hlen & H4 & H7) & ->).
    assert (truthy (Some s) = true) as -> by (apply truthy_length; lia).
    apply Nat.leb_le in Hlen. rewrite Hlen. simpl.
    rewrite !bool_decide_eq_true_2 by assumption. reflexivity.
Qed.

Lemma year_of_tag_None (v : option exif_value) :
  year_of_tag v = None <-> ~ exists date_str, accepted v date_str.
Proof.
  split.
  - intros H (s & Hs).
    assert (year_of_tag v = Some (substring 0 4 s)) as E
      by (apply year_of_tag_Some; eauto).
    congruence.
  - intros H. destruct (year_of_tag v) as [y|] eqn:E; [|reflexivity].
    apply year_of_tag_Some in E as (s & Hs & _). exfalso; eauto.
Qed.

Lemma year_of_tag_length (v : option exif_value) (y : string) :
  year_of_tag v = Some y -> String.length y = 4.
Proof.
  intros (s & (_ & Hlen & _) & ->)%year_of_tag_Some.
  apply length_substring_0. lia.
Qed.

Lemma year_of_tag_truthy (v : option exif_value) (y : string) :
  year_of_tag v = Some y -> truthy (Some y) = true.
Proof.
  intros H%year_of_tag_length. apply truthy_length. lia.
Qed.

Lemma year_from_exif_cases (exif_data : option (gmap Z exif_value)) :
  year_from_exif exif_data = None \/
  exists y, year_from_exif exif_data = Some y /\ String.length y = 4.
Proof.
  unfold year_from_exif. destruct exif_data as [d|]; [|now left].
  destruct (bool_decide (d = ∅)); [now left|].
  destruct (year_of_tag (d !! 36867%Z)) as [y|] eqn:E1.
  - rewrite (year_of_tag_truthy _ _ E1). simpl. right. exists y.
    eauto using year_of_tag_length.
  - simpl. destruct (year_of_tag (d !! 306%Z)) as [y|] eqn:E2; [|now left].
    right. exists y. eauto using year_of_tag_length.
Qed.

Lemma truthy_length_4 (y : string) :
  String.length y = 4 -> truthy (Some y) = true.
Proof. intros H. apply truthy_length. lia. Qed.

(** What [get_date_taken] answers when all three PIL calls succeed. *)
Lemma get_date_taken_exif (p : Path) (exif_data : option (gmap Z exif_value))
    (st : run_state) :
  elem (lower (suffix p)) IMAGE_EXTENSIONS = true ->
  is_Some (fs st !! str p) ->
  get_date_taken p (ExifData exif_data) st
  = (year_from_exif exif_data, set_handles (open_handles st) st).
Proof.
  intros Hext [nd Hnd]. unfold get_date_taken, image_open. rewrite Hext, Hnd.
  cbn [image_load image_getexif].
  unfold image_close. cbn.
  destruct (year_from_exif_cases exif_data) as [-> | (y & -> & Hy)].
  - reflexivity.
  - now rewrite (truthy_length_4 _ Hy).
Qed.

(** *** C5: the tag carrying the original capture time is read first, the
    generic time tag second; a tag value counts exactly when it is a string
    of at least 10 characters with colons at indices 4 and 7, and then its
    first four characters are the year; otherwise there is no date. *)
Theorem get_date_taken_reads_tags (p : Path) (d : gmap Z exif_value)
    (st : run_state) :
  elem (lower (suffix p)) IMAGE_EXTENSIONS = true ->
  is_Some (fs st !! str p) ->
  let year := (get_date_taken p (ExifData (Some d)) st).1 in
  (forall date_str, accepted (d !! 36867%Z) date_str ->
     year = Some (substring 0 4 date_str)) /\
  (forall date_str, (~ exists s, accepted (d !! 36867%Z) s) ->
     accepted (d !! 306%Z) date_str ->
     year = Some (substring 0 4 date_str)) /\
  ((~ exists s, accepted (d !! 36867%Z) s) ->
   (~ exists s, accepted (d !! 306%Z) s) -> year = None) /\
  (forall y, year = Some y ->
     exists date_str, y = substring 0 4 date_str /\
       (accepted (d !! 36867%Z) date_str \/ accepted (d !! 306%Z) date_str)).
Proof.
  intros Hext Hfile. rewrite get_date_taken_exif by assumption. cbn [fst].
  assert (Hne : forall s k, accepted (d !! k) s -> bool_decide (d = ∅) = false).
  { intros s k (Hk & _). apply bool_decide_eq_false. intros ->.
    rewrite lookup_empty in Hk. discriminate. }
  unfold year_from_exif. repeat split.
  - intros s Hs. rewrite (Hne _ _ Hs).
    assert (E : year_of_tag (d !! 36867%Z) = Some (substring 0 4 s))
      by (apply year_of_tag_Some; eauto).
    rewrite E, (year_of_tag_truthy _ _ E). reflexivity.
  - intros s Hno Hs. rewrite (Hne _ _ Hs).
    apply year_of_tag_None in Hno. rewrite Hno. simpl.
    apply year_of_tag_Some; eauto.
  - intros Hno1 Hno2. apply year_of_tag_None in Hno1, Hno2.
    rewrite Hno1, Hno2. simpl. now destruct (bool_decide (d = ∅)).
  - intros y. destruct (bool_decide (d = ∅)); [discriminate|].
    destruct (year_of_tag (d !! 36867%Z)) as [y1|] eqn:E1.
    + rewrite (year_of_tag_truthy _ _ E1). simpl. intros [= <-].
      apply year_of_tag_Some in E1 as (s & Hs & ->). eauto.
    + simpl. intros (s & Hs & ->)%year_of_tag_Some. eauto.
Qed.

(** ** Size tiers *)

Lemma Qlt_bool_iff (x y : Q) : Qlt_bool x y = true <-> (x < y)%Q.
Proof.
  unfold Qlt_bool. rewrite negb_true_iff. split.
  - intros H. apply Qnot_le_lt. intros Hle.
    apply Qle_bool_iff in Hle. congruence.
  - intros H. destruct (Qle_bool y x) eqn:E; [|reflexivity].
    apply Qle_bool_iff in E. exfalso. eapply Qlt_not_le; eauto.
Qed.

Lemma Qlt_bool_false_iff (x y : Q) : Qlt_bool x y = false <-> (y <= x)%Q.
Proof.
  unfold Qlt_bool. rewrite negb_false_iff. apply Qle_bool_iff.
Qed.

(** *** C9: the size in MB picks one of six tiers (below 0.5, 0.5 to 1, 1 to
    2, 2 to 5, 5 to 10, 10 and more); a size that cannot be read gives
    [unknown_size].  The function always answers, and neither the counters
    nor the files change: at most a warning is logged. *)
Theorem get_file_size_category_tiers (file_path : string) (st : run_state) :
  let tier := (get_file_size_category file_path st).1 in
  let st' := (get_file_size_category file_path st).2 in
  counts st' = counts st /\ fs st' = fs st /\
  match fs st !! file_path with
  | None => tier = "unknown_size" /\ st' = logging WARNING st
  | Some nd =>
      let size_mb := size_in_mb nd in
      st' = st /\ tier ∈ size_tiers /\
      ((size_mb < 0.5)%Q -> tier = "tiny_under_0.5MB") /\
      ((0.5 <= size_mb)%Q -> (size_mb < 1)%Q -> tier = "small_0.5-1MB") /\
      ((1 <= size_mb)%Q -> (size_mb < 2)%Q -> tier = "medium_1-2MB") /\
      ((2 <= size_mb)%Q -> (size_mb < 5)%Q -> tier = "large_2-5MB") /\
      ((5 <= size_mb)%Q -> (size_mb < 10)%Q -> tier = "xlarge_5-10MB") /\
      ((10 <= size_mb)%Q -> tier = "huge_over_10MB")
  end.
Proof.
  unfold get_file_size_category, size_in_mb.
  destruct (fs st !! file_path) as [nd|]; [|now cbn].
  generalize (inject_Z (st_size nd) / inject_Z (1024 * 1024))%Q.
  intros size_mb.
  destruct (Qlt_bool size_mb 0.5) eqn:E1;
    [|destruct (Qlt_bool size_mb 1) eqn:E2;
      [|destruct (Qlt_bool size_mb 2) eqn:E3;
        [|destruct (Qlt_bool size_mb 5) eqn:E4;
          [|destruct (Qlt_bool size_mb 10) eqn:E5]]]];
    cbn [fst snd];
    repeat match goal with
    | H : Qlt_bool _ _ = true |- _ => apply Qlt_bool_iff in H
    | H : Qlt_bool _ _ = false |- _ => apply Qlt_bool_false_iff in H
    end;
    (split; [reflexivity|]); (split; [reflexivity|]);
    (split; [reflexivity|]);
    (split; [unfold size_tiers; set_solver|]);
    repeat split; intros; try reflexivity; exfalso; lra.
Qed.

(** ** Date extraction: failures, handles, and the target folder *)

(** [get_date_taken] touches the log and the handle count only. *)
Lemma get_date_taken_frame (p : Path) (dec : decode) (st : run_state) :
  let st' := (get_date_taken p dec st).2 in
  fs st' = fs st /\ counts st' = counts st /\
  hashes_in_destination st' = hashes_in_destination st.
Proof.
  unfold get_date_taken, get_date_taken_except, image_open, image_close.
  repeat case_match; simplify_eq; cbn; auto.
Qed.

Lemma get_date_taken_cases (p : Path) (dec : decode) (st : run_state) :
  let year_or_status := (get_date_taken p dec st).1 in
  year_or_status = None \/ year_or_status = Some "error" \/
  exists y, year_or_status = Some y /\ String.length y = 4.
Proof.
  unfold get_date_taken, get_date_taken_except, image_open.
  repeat case_match; simplify_eq; cbn; auto.
  match goal with
  | |- context [year_from_exif ?o] =>
      destruct (year_from_exif_cases o) as [E | (y & E & Hy)]; eauto
  end.
Qed.

(** The answer of [get_date_taken] on an image file that is there when one
    of the PIL calls raises [e]. *)
Lemma get_date_taken_raises (p : Path) (dec : decode) (e : exn)
    (st : run_state) :
  elem (lower (suffix p)) IMAGE_EXTENSIONS = true ->
  is_Some (fs st !! str p) ->
  decode_raises dec e ->
  (get_date_taken p dec st).1
  = match e with OSError FileNotFoundError => Some "error" | _ => None end.
Proof.
  intros Hext [nd Hnd] [-> | [-> | ->]];
    unfold get_date_taken, get_date_taken_except, image_open;
    rewrite Hext, Hnd; cbn; repeat case_match; reflexivity.
Qed.

Lemma get_date_taken_vanished (p : Path) (dec : decode) (st : run_state) :
  elem (lower (suffix p)) IMAGE_EXTENSIONS = true ->
  fs st !! str p = None ->
  (get_date_taken p dec st).1 = Some "error".
Proof.
  intros Hext Hnd. unfold get_date_taken, image_open.
  now rewrite Hext, Hnd.
Qed.

Lemma get_file_size_category_fs (p : string) (st1 st2 : run_state) :
  fs st1 = fs st2 ->
  (get_file_size_category p st1).1 = (get_file_size_category p st2).1.
Proof.
  intros E. unfold get_file_size_category. rewrite E.
  repeat case_match; reflexivity.
Qed.

Lemma get_file_size_category_frame (p : string) (st : run_state) :
  let st' := (get_file_size_category p st).2 in
  fs st' = fs st /\ counts st' = counts st /\
  hashes_in_destination st' = hashes_in_destination st /\
  open_handles st' = open_handles st.
Proof.
  unfold get_file_size_category. repeat case_match; cbn; auto.
Qed.

(** The target folder [classify] gives an image, from the answer of
    [get_date_taken]. *)
Lemma classify_image (it : item) (st : run_state) :
  elem (lower (suffix (source_path it))) IMAGE_EXTENSIONS = true ->
  let src := source_path it in
  let year_or_status := (get_date_taken src (decoder it) st).1 in
  exists st',
    classify it st
    = Media image
        (Some (if bool_decide (year_or_status = Some "error") then ERROR_DIR
               else if truthy year_or_status
                    then DEST_DIR // default "" year_or_status
                    else NO_DATE_DIR // (get_file_size_category (str src) st).1))
        st' /\
    fs st' = fs st /\
    hashes_in_destination st' = hashes_in_destination st /\
    counts st'
    = counts (if bool_decide (year_or_status = Some "error") then incr_error st
              else if truthy year_or_status then st else incr_no_date st).
Proof.
  intros Hext. cbn zeta. unfold classify. rewrite Hext.
  destruct (get_date_taken_frame (source_path it) (decoder it) st)
    as (Hfs & Hc & Hh).
  destruct (get_date_taken (source_path it) (decoder it) st) as [y st1].
  cbn [fst snd] in *. unfold determine_target.
  destruct (bool_decide (y = Some "error")).
  { eexists; split; [reflexivity|]. cbn. rewrite Hfs, Hh, Hc. auto. }
  destruct (truthy y).
  { eexists; split; [reflexivity|]. cbn. auto. }
  destruct (get_file_size_category_frame (str (source_path it)) st1)
    as (Hfs' & Hc' & Hh' & _).
  rewrite (get_file_size_category_fs _ st st1) by congruence.
  destruct (get_file_size_category (str (source_path it)) st1) as [tier st2].
  cbn [fst snd] in *. eexists; split; [reflexivity|]. cbn.
  rewrite Hfs', Hh', Hc', Hfs, Hh, Hc. auto.
Qed.

(** *** C1 (as the script behaves): for an image, only a file that vanished
    during the date read is sent to the errors folder.  When the decoder
    cannot identify the file, or decoding fails in any other way,
    [get_date_taken] answers "no date" and the file goes to the no-date
    folder of its size tier, like a readable file without a valid time tag;
    no error is counted for it. *)
Theorem image_target_after_date_read (it : item) (st : run_state) :
  elem (lower (suffix (source_path it))) IMAGE_EXTENSIONS = true ->
  let src := source_path it in
  let no_date := NO_DATE_DIR // (get_file_size_category (str src) st).1 in
  (fs st !! str src = None \/
   (is_Some (fs st !! str src) /\
    decode_raises (decoder it) (OSError FileNotFoundError)) ->
   exists st', classify it st = Media image (Some ERROR_DIR) st' /\
     error_count (counts st') = S (error_count (counts st))) /\
  (forall e, is_Some (fs st !! str src) -> decode_raises (decoder it) e ->
     e <> OSError FileNotFoundError ->
     exists st', classify it st = Media image (Some no_date) st' /\
       error_count (counts st') = error_count (counts st)) /\
  (forall exif_data, is_Some (fs st !! str src) ->
     decoder it = ExifData exif_data -> year_from_exif exif_data = None ->
     exists st', classify it st = Media image (Some no_date) st' /\
       error_count (counts st') = error_count (counts st)).
Proof.
  intros Hext. cbn zeta.
  destruct (classify_image it st Hext) as (st' & Hcl & _ & _ & Hc).
  cbn zeta in Hcl, Hc. set (src := source_path it) in *. repeat split.
  - intros Hgone.
    assert (E : (get_date_taken src (decoder it) st).1 = Some "error").
    { destruct Hgone as [Hgone | [Hfile Hraise]].
      - now apply get_date_taken_vanished.
      - apply (get_date_taken_raises _ _ _ _ Hext Hfile Hraise). }
    rewrite E in Hcl, Hc. exists st'. split; [exact Hcl|]. now rewrite Hc.
  - intros e Hfile Hraise Hne.
    assert (E : (get_date_taken src (decoder it) st).1 = None).
    { rewrite (get_date_taken_raises _ _ _ _ Hext Hfile Hraise).
      destruct e as [[]| |]; congruence. }
    rewrite E in Hcl, Hc. exists st'. split; [exact Hcl|]. now rewrite Hc.
  - intros exif_data Hfile Hdec Hyear.
    assert (E : (get_date_taken src (decoder it) st).1 = None).
    { rewrite Hdec, get_date_taken_exif by assumption. exact Hyear. }
    rewrite E in Hcl, Hc. exists st'. split; [exact Hcl|]. now rewrite Hc.
Qed.

(** The handle count after [get_date_taken] on an image file that is
    there: the handle opened by [Image.open] is closed on the path where all
    calls succeed, and stays open when [img.load()] or [img._getexif()]
    raises, because [img.close()] is skipped. *)
Lemma get_date_taken_handles (p : Path) (dec : decode) (st : run_state) :
  elem (lower (suffix p)) IMAGE_EXTENSIONS = true ->
  is_Some (fs st !! str p) ->
  open_handles (get_date_taken p dec st).2
  = match dec with
    | LoadRaises _ | GetexifRaises _ => S (open_handles st)
    | _ => open_handles st
    end.
Proof.
  intros Hext [nd Hnd].
  unfold get_date_taken, get_date_taken_except, image_open, image_close.
  rewrite Hext, Hnd. destruct dec; cbn; repeat case_match; reflexivity.
Qed.

(** ** The conflict loops *)

Lemma calculate_hash_fs (p : string) (st1 st2 : run_state) :
  fs st1 = fs st2 -> (calculate_hash p st1).1 = (calculate_hash p st2).1.
Proof.
  intros E. unfold calculate_hash. rewrite E. repeat case_match; reflexivity.
Qed.

Lemma calculate_hash_frame (p : string) (st : run_state) :
  let st' := (calculate_hash p st).2 in
  fs st' = fs st /\ counts st' = counts st /\
  hashes_in_destination st' = hashes_in_destination st /\
  open_handles st' = open_handles st.
Proof. unfold calculate_hash. repeat case_match; cbn; auto. Qed.

Lemma calculate_hash_lookup (p : string) (st : run_state) :
  (calculate_hash p st).1 = fs st !! p ≫= sha256.
Proof.
  unfold calculate_hash. destruct (fs st !! p) as [nd|]; [|reflexivity].
  cbn. now destruct (sha256 nd).
Qed.

Lemma exists_fs (p : string) (st1 st2 : run_state) :
  fs st1 = fs st2 -> exists_ p st1 = exists_ p st2.
Proof. unfold exists_. now intros ->. Qed.

Lemma exists_true (p : string) (st : run_state) :
  exists_ p st = true <-> is_Some (fs st !! p).
Proof. unfold exists_. apply bool_decide_eq_true. Qed.

Lemma exists_false (p : string) (st : run_state) :
  exists_ p st = false <-> fs st !! p = None.
Proof.
  unfold exists_. rewrite bool_decide_eq_false. symmetry.
  apply eq_None_not_Some.
Qed.

Lemma fingerprint_match_fs (cur : option string) (p : string)
    (st1 st2 : run_state) :
  fs st1 = fs st2 -> fingerprint_match cur p st1 = fingerprint_match cur p st2.
Proof.
  intros E. unfold fingerprint_match. now rewrite (calculate_hash_fs p st1 st2).
Qed.

Section Candidates.

Variables (it : item) (ext target_folder first : string).
Variable current_file_hash : option string.

Local Abbreviation cand := (candidate it ext target_folder first).

Lemma candidate_inj (i j : nat) : cand (S i) = cand (S j) -> i = j.
Proof.
  unfold cand, candidate. intros H. apply joinpath_inj, new_name_inj in H.
  congruence.
Qed.

(** Among the first [n] renamed candidates, either one is free or all are
    taken. *)
Lemma candidates_scan (st : run_state) (n : nat) :
  (exists k, 1 <= k <= n /\ exists_ (cand k) st = false) \/
  (forall k, 1 <= k <= n -> exists_ (cand k) st = true).
Proof.
  induction n as [|n [(k & Hk & Hfree) | Hall]].
  - right. intros k Hk. lia.
  - left. exists k. split; [lia | assumption].
  - destruct (exists_ (cand (S n)) st) eqn:E.
    + right. intros k Hk. destruct (decide (k = S n)) as [-> | Hne];
        [assumption | apply Hall; lia].
    + left. exists (S n). split; [lia | assumption].
Qed.

(** The file system holds finitely many files, so some candidate is free. *)
Lemma free_candidate (st : run_state) :
  exists k, k < loop_fuel st /\ exists_ (cand k) st = false.
Proof.
  unfold loop_fuel.
  destruct (candidates_scan st (S (size (fs st)))) as [(k & Hk & Hfree) | Hall].
  { exists k. split; [lia | assumption]. }
  exfalso.
  set (l := (fun k => cand (S k)) <$> seq 0 (S (size (fs st)))).
  assert (Hnd : NoDup l).
  { apply NoDup_fmap_2; [|apply NoDup_seq].
    intros i j. apply candidate_inj. }
  assert (Hsub : list_to_set l ⊆ dom (fs st)).
  { intros p [k [-> Hk%elem_of_seq]]%elem_of_list_to_set%list_elem_of_fmap.
    apply elem_of_dom, exists_true, Hall. lia. }
  apply subseteq_size in Hsub.
  rewrite size_list_to_set, size_dom in Hsub by assumption.
  unfold l in Hsub. rewrite length_fmap, length_seq in Hsub. lia.
Qed.

(** The loop from candidate [i] on, with enough fuel to reach a free one. *)
Lemma resolve_conflict_from (st : run_state) (fuel i : nat) (st_i : run_state) :
  fs st_i = fs st -> counts st_i = counts st ->
  hashes_in_destination st_i = hashes_in_destination st ->
  (exists k, i <= k < i + fuel /\ exists_ (cand k) st = false) ->
  exists k r st',
    i <= k /\
    resolve_conflict fuel it ext target_folder current_file_hash
      (cand i) (S i) st_i = Some (r, st') /\
    (forall j, i <= j < k ->
       exists_ (cand j) st = true /\
       fingerprint_match current_file_hash (cand j) st = false) /\
    resolved it current_file_hash (cand k) st r st'.
Proof.
  revert i st_i. induction fuel as [|fuel IH]; intros i st_i Hfs Hc Hh Hfree.
  { destruct Hfree as (k & Hk & _). lia. }
  cbn [resolve_conflict]. rewrite (exists_fs _ st_i st Hfs).
  destruct (exists_ (cand i) st) eqn:Hex.
  2:{ exists i, (Some (cand i)), st_i. split; [lia|]. split; [reflexivity|].
      split; [intros j Hj; lia|]. split; [assumption|]. left. auto. }
  pose proof (calculate_hash_frame (cand i) st_i) as (Hfs1 & Hc1 & Hh1 & _).
  pose proof (calculate_hash_fs (cand i) st_i st Hfs) as Hval.
  destruct (calculate_hash (cand i) st_i) as [existing st1].
  cbn [fst snd] in *.
  assert (Hm : truthy existing && bool_decide (current_file_hash = existing)
               = fingerprint_match current_file_hash (cand i) st)
    by (unfold fingerprint_match; now rewrite Hval).
  rewrite Hm. destruct (fingerprint_match current_file_hash (cand i) st) eqn:Hfm.
  - cbn [fs logging]. rewrite Hfs1, Hfs.
    destruct (os_remove (remove_denied it) (str (source_path it)) (fs st))
      as [e|m] eqn:Hrm.
    + eexists i, None, _. split; [lia|]. split; [reflexivity|].
      split; [intros j Hj; lia|]. split; [cbn; congruence|]. right.
      rewrite Hrm. repeat split; try assumption; cbn; congruence.
    + eexists i, None, _. split; [lia|]. split; [reflexivity|].
      split; [intros j Hj; lia|]. split; [cbn; congruence|]. right.
      rewrite Hrm. repeat split; try assumption; cbn; congruence.
  - rewrite Nat.add_1_r.
    destruct (IH (S i) (logging WARNING st1)) as (k & r & st' & Hk & Hrun & Hbefore & Hres).
    + cbn. congruence.
    + cbn. congruence.
    + cbn. congruence.
    + destruct Hfree as (k & Hk & Hfree). exists k. split; [|assumption].
      destruct (decide (k = i)) as [-> | Hne]; [congruence | lia].
    + exists k, r, st'. split; [lia|]. split; [exact Hrun|].
      split; [|assumption]. intros j Hj.
      destruct (decide (j = i)) as [-> | Hne]; [auto | apply Hbefore; lia].
Qed.

End Candidates.

(** The loop of the last handler stops at the first free name. *)
Lemma error_dest_loop_from (it : item) (st : run_state) (fuel i : nat) :
  let src := source_path it in
  let cand := candidate it (suffix src) ERROR_DIR (ERROR_DIR // name src) in
  (exists k, i <= k < i + fuel /\ exists_ (cand k) st = false) ->
  exists k,
    i <= k /\
    error_dest_loop fuel src (cand i) (S i) st = Some (cand k) /\
    (forall j, i <= j < k -> exists_ (cand j) st = true) /\
    exists_ (cand k) st = false.
Proof.
  intros src cand. revert i. induction fuel as [|fuel IH]; intros i Hfree.
  { destruct Hfree as (k & Hk & _). lia. }
  cbn [error_dest_loop]. destruct (exists_ (cand i) st) eqn:Hex.
  2:{ exists i. repeat split; [lia | | assumption]. intros j Hj; lia. }
  rewrite Nat.add_1_r. destruct (IH (S i)) as (k & Hk & Hrun & Hbefore & Hk').
  - destruct Hfree as (k & Hk & Hfree). exists k. split; [|assumption].
    destruct (decide (k = i)) as [-> | Hne]; [congruence | lia].
  - exists k. split; [lia|]. split; [exact Hrun|]. split; [|assumption].
    intros j Hj. destruct (decide (j = i)) as [-> | Hne];
      [assumption | apply Hbefore; lia].
Qed.

Lemma error_dest_loop_terminates (it : item) (st : run_state) :
  let src := source_path it in
  let cand := candidate it (suffix src) ERROR_DIR (ERROR_DIR // name src) in
  exists k,
    error_dest_loop (loop_fuel st) src (ERROR_DIR // name src) 1 st
    = Some (cand k) /\
    (forall j, j < k -> exists_ (cand j) st = true) /\
    exists_ (cand k) st = false.
Proof.
  intros src cand.
  destruct (error_dest_loop_from it st (loop_fuel st) 0) as (k & _ & H1 & H2 & H3).
  - destruct (free_candidate it (suffix src) ERROR_DIR (ERROR_DIR // name src) st)
      as (k & Hk & Hfree).
    exists k. split; [lia | assumption].
  - exists k. split; [exact H1|]. split; [|exact H3].
    intros j Hj. apply H2. lia.
Qed.

(** *** C6: the conflict loop tries the desired name, then [stem_1],
    [stem_2], ... with the counter in front of the extension ([.jpg] for a
    HEIC conversion, the suffix of the source otherwise), checking each name
    for existence.  Every name it passes over is taken by a file whose
    fingerprint does not match; it stops at the first name that is free, or
    at the first taken name whose file matches the fingerprint of the source,
    and then deletes the source as a duplicate.  It always stops.  The
    sequence of names depends on the file and the folder only: the counter is
    1 again for every file, whatever happened earlier in the run. *)
Theorem resolve_conflict_counter (it : item) (ext target_folder first : string)
    (current_file_hash : option string) (st : run_state) :
  let cand := candidate it ext target_folder first in
  cand 0 = first /\
  (forall n, cand (S n) = target_folder //
       (stem (source_path it) +:+ "_" +:+ pretty (S n) +:+ ext)) /\
  exists k r st',
    resolve_conflict (loop_fuel st) it ext target_folder current_file_hash
      first 1 st = Some (r, st') /\
    (forall j, j < k ->
       exists_ (cand j) st = true /\
       fingerprint_match current_file_hash (cand j) st = false) /\
    resolved it current_file_hash (cand k) st r st'.
Proof.
  intros cand. split; [reflexivity|]. split; [reflexivity|].
  destruct (resolve_conflict_from it ext target_folder first current_file_hash
              st (loop_fuel st) 0 st)
    as (k & r & st' & _ & Hrun & Hbefore & Hres); try reflexivity.
  - destruct (free_candidate it ext target_folder first st) as (k & Hk & Hfree).
    exists k. split; [lia | assumption].
  - exists k, r, st'. split; [exact Hrun|]. split; [|exact Hres].
    intros j Hj. apply Hbefore. lia.
Qed.

(** The loop as the two branches call it, for the proofs below. *)
Lemma resolve_conflict_result (it : item) (ext target_folder first : string)
    (current_file_hash : option string) (st : run_state) :
  exists k r st',
    resolve_conflict (loop_fuel st) it ext target_folder current_file_hash
      first 1 st = Some (r, st') /\
    resolved it current_file_hash (candidate it ext target_folder first k)
      st r st'.
Proof.
  destruct (resolve_conflict_from it ext target_folder first current_file_hash
              st (loop_fuel st) 0 st)
    as (k & r & st' & _ & Hrun & _ & Hres); try reflexivity.
  - destruct (free_candidate it ext target_folder first st) as (k & Hk & Hfree).
    exists k. split; [lia | assumption].
  - eauto.
Qed.

(** *** C10: an existing file that cannot be hashed never stops the
    conflict loop.  When the loop comes to a candidate name that is taken by
    a file whose digest cannot be computed, the comparison counts as "no
    match" and the loop goes on: it ends at a later candidate, whose name is
    built from the counter.  Either that name is free and is the answer, the
    source being left alone (files and counters are as they were); or the
    loop ends there with the source taken for a duplicate, and then the file
    at that name has a digest, the digest of the source.  When the name that
    follows the unreadable file is free, the loop ends there. *)
Theorem unreadable_existing_file_is_renamed_around (it : item)
    (ext target_folder first : string) (current_file_hash : option string)
    (st : run_state) (k : nat) :
  let cand := candidate it ext target_folder first in
  (forall j, j < k ->
     exists_ (cand j) st = true /\
     fingerprint_match current_file_hash (cand j) st = false) ->
  exists_ (cand k) st = true ->
  (calculate_hash (cand k) st).1 = None ->
  exists k' r st',
    k < k' /\
    cand k' = target_folder //
                (stem (source_path it) +:+ "_" +:+ pretty k' +:+ ext) /\
    resolve_conflict (loop_fuel st) it ext target_folder current_file_hash
      first 1 st = Some (r, st') /\
    (forall j, j < k' -> exists_ (cand j) st = true) /\
    ((r = Some (cand k') /\ exists_ (cand k') st = false /\
      fs st' = fs st /\ counts st' = counts st)
     \/
     (r = None /\
      exists nd h, fs st !! cand k' = Some nd /\ sha256 nd = Some h /\
                   current_file_hash = Some h)) /\
    (exists_ (cand (S k)) st = false -> k' = S k).
Proof.
  intros cand Hbefore Hex Hhash.
  assert (Hnm : fingerprint_match current_file_hash (cand k) st = false)
    by (unfold fingerprint_match; now rewrite Hhash).
  destruct (resolve_conflict_from it ext target_folder first current_file_hash
              st (loop_fuel st) 0 st eq_refl eq_refl eq_refl)
    as (k' & r & st' & _ & Hrun & Hpass & Hres).
  { destruct (free_candidate it ext target_folder first st) as (k0 & Hk0 & Hfree).
    exists k0. split; [lia | assumption]. }
  fold cand in Hpass, Hres.
  assert (Hlt : k < k').
  { destruct (Nat.lt_trichotomy k' k) as [Hl | [-> | Hl]]; [| |exact Hl].
    - destruct (Hbefore k' Hl) as (He & Hf).
      destruct Hres as (_ & [(Hfree & _) | (_ & Hm & _)]); congruence.
    - destruct Hres as (_ & [(Hfree & _) | (_ & Hm & _)]); congruence. }
  exists k', r, st'. split; [exact Hlt|].
  split; [destruct k'; [lia | reflexivity]|].
  split; [exact Hrun|].
  split; [intros j Hj; apply Hpass; lia|]. split.
  - destruct Hres as (_ & [(Hfree & -> & Hfs & Hc) | (_ & Hm & -> & _)]);
      [left; auto|].
    right. split; [reflexivity|].
    unfold fingerprint_match in Hm. rewrite calculate_hash_lookup in Hm.
    apply andb_prop in Hm as (Ht & Heq%bool_decide_eq_true).
    destruct (fs st !! cand k') as [nd|]; [|discriminate].
    cbn in Ht, Heq. destruct (sha256 nd) as [h|] eqn:Hsha; [|discriminate].
    exists nd, h. auto.
  - intros Hnext. destruct (decide (k' = S k)) as [|Hne]; [assumption|].
    destruct (Hpass (S k)) as (Htaken & _); [lia | congruence].
Qed.

(** ** The dictionary of placed digests *)

Lemma setdefault_fst (k : string) (d : gmap string (gset (option string))) :
  (setdefault k d).1 = default ∅ (d !! k).
Proof. unfold setdefault. now destruct (d !! k). Qed.

Lemma elem_of_setdefault (k : string) (x : option string)
    (d : gmap string (gset (option string))) :
  x ∈ (setdefault k d).1 <-> recorded d k x.
Proof.
  rewrite setdefault_fst. unfold recorded. destruct (d !! k) as [s|]; cbn.
  - split; [eauto | now intros (s' & [= <-] & H)].
  - split; [set_solver | now intros (s' & [=] & _)].
Qed.

Lemma setdefault_grow (k B : string) (x : option string)
    (d : gmap string (gset (option string))) :
  recorded d B x -> recorded (setdefault k d).2 B x.
Proof.
  unfold setdefault, recorded. intros (s & Hs & Hx).
  destruct (d !! k) eqn:E; cbn; [eauto|].
  exists s. split; [|assumption].
  rewrite lookup_insert_ne; [assumption | congruence].
Qed.

Lemma setdefault_add_grow (k B : string) (x y : option string)
    (d : gmap string (gset (option string))) :
  recorded d B x -> recorded (setdefault_add k y d) B x.
Proof.
  unfold setdefault_add, setdefault, recorded. intros (s & Hs & Hx).
  destruct (decide (k = B)) as [-> | Hne].
  - rewrite Hs. exists ({[y]} ∪ s). rewrite lookup_insert_eq. set_solver.
  - exists s. destruct (d !! k); rewrite !lookup_insert_ne by assumption; auto.
Qed.

Lemma setdefault_add_recorded (k : string) (y : option string)
    (d : gmap string (gset (option string))) :
  recorded (setdefault_add k y d) k y.
Proof.
  unfold setdefault_add, setdefault, recorded.
  destruct (d !! k) as [s|]; eexists; rewrite lookup_insert_eq;
    (split; [reflexivity | set_solver]).
Qed.

Lemma hashes_grow_refl (st st' : run_state) :
  hashes_in_destination st' = hashes_in_destination st -> hashes_grow st st'.
Proof. unfold hashes_grow. now intros ->. Qed.

Lemma hashes_grow_trans (st1 st2 st3 : run_state) :
  hashes_grow st1 st2 -> hashes_grow st2 st3 -> hashes_grow st1 st3.
Proof. unfold hashes_grow. auto. Qed.

(** ** What each part of the loop body does to the state *)

Ltac state_simpl :=
  cbn [fs counts hashes_in_destination open_handles log
       set_fs set_hashes set_counts set_handles logging
       incr_moved incr_video_moved incr_heic_converted incr_no_date
       incr_archive_moved incr_deleted_non_media incr_error incr_skipped
       incr_duplicate_deleted
       moved_count video_moved_count heic_converted_count no_date_count
       archive_moved_count deleted_non_media_count error_count skipped_count
       duplicate_deleted_count fst snd] in *.

Lemma os_remove_inr (denied : bool) (p : string) (m m' : gmap string fnode) :
  os_remove denied p m = inr m' ->
  m' = delete p m /\ is_Some (m !! p) /\ denied = false.
Proof.
  unfold os_remove. destruct (m !! p); [|discriminate].
  destruct denied; [discriminate|]. intros [= <-]. eauto.
Qed.

Lemma shutil_move_inr (fault : option exn) (leftover : option fnode)
    (src dst : string) (m m' : gmap string fnode) :
  shutil_move fault leftover src dst m = inr m' ->
  exists nd, m !! src = Some nd /\ fault = None /\
             m' = <[dst := nd]> (delete src m).
Proof.
  unfold shutil_move. destruct (m !! src) as [nd|]; [|discriminate].
  destruct fault; [discriminate|]. intros [= <-]. eauto.
Qed.

(** A move that raises: the source was not there, or the fault struck and
    the files are as they were but for the copy left at the destination. *)
Lemma shutil_move_inl (fault : option exn) (leftover : option fnode)
    (src dst : string) (m m' : gmap string fnode) (e : exn) :
  shutil_move fault leftover src dst m = inl (e, m') ->
  (m !! src = None /\ e = OSError FileNotFoundError /\ m' = m) \/
  (is_Some (m !! src) /\ fault = Some e /\
   m' = match failed_move_leaves e leftover with
        | Some copy => <[dst := copy]> m
        | None => m
        end).
Proof.
  unfold shutil_move. destruct (m !! src) as [nd|].
  - destruct fault; [|discriminate]. intros [= <- <-]. eauto.
  - intros [= <- <-]. auto.
Qed.

Lemma failed_move_leaves_Some (e : exn) (leftover : option fnode)
    (copy : fnode) :
  failed_move_leaves e leftover = Some copy ->
  e <> OSError FileNotFoundError /\ leftover = Some copy.
Proof.
  unfold failed_move_leaves.
  destruct e as [[| |]| |]; intros H; try discriminate;
    (split; [congruence | exact H]).
Qed.

(** A failed move to a path that was free leaves the files as
    [left_behind] says. *)
Lemma shutil_move_left_behind (fault : option exn) (leftover : option fnode)
    (src dst : string) (m m' : gmap string fnode) (e : exn) :
  m !! dst = None ->
  shutil_move fault leftover src dst m = inl (e, m') ->
  left_behind src e m m'.
Proof.
  intros Hfree [(_ & _ & ->) | (Hsrc & _ & ->)]%shutil_move_inl;
    [now left|].
  destruct (failed_move_leaves e leftover) as [copy|] eqn:E; [|now left].
  apply failed_move_leaves_Some in E as (Hne & _).
  right. eauto 6.
Qed.

Lemma left_behind_source (src : string) (e : exn) (m m' : gmap string fnode) :
  left_behind src e m m' -> m' !! src = m !! src.
Proof.
  intros [-> | (_ & [nd Hnd] & d & copy & Hd & ->)]; [reflexivity|].
  apply lookup_insert_ne. congruence.
Qed.

Lemma left_behind_not_found (src : string) (m m' : gmap string fnode) :
  left_behind src (OSError FileNotFoundError) m m' -> m' = m.
Proof. now intros [-> | (Hne & _)]. Qed.

Lemma image_save_inr (res : exn + fnode) (src dst : string)
    (m m' : gmap string fnode) :
  image_save res src dst m = inr m' ->
  exists jpeg, res = inr jpeg /\ is_Some (m !! src) /\ m' = <[dst := jpeg]> m.
Proof.
  unfold image_save. destruct (m !! src) as [nd|]; [|discriminate].
  destruct res; [discriminate|]. intros [= <-]. eauto.
Qed.

Lemma count_move_frame (media : media_type) (tf : string) (st : run_state) :
  fs (count_move media tf st) = fs st /\
  hashes_in_destination (count_move media tf st) = hashes_in_destination st /\
  log (count_move media tf st) = log st /\
  open_handles (count_move media tf st) = open_handles st.
Proof. unfold count_move. repeat case_match; cbn; auto. Qed.

Lemma count_move_counts (media : media_type) (tf : string)
    (st1 st2 : run_state) :
  counts st1 = counts st2 ->
  counts (count_move media tf st1) = counts (count_move media tf st2).
Proof.
  intros E. unfold count_move. repeat case_match; state_simpl;
    rewrite ?E; reflexivity.
Qed.

Lemma count_move_total (media : media_type) (tf : string) (st : run_state) :
  total (counts st) <= total (counts (count_move media tf st)) /\
  error_count (counts (count_move media tf st)) = error_count (counts st) /\
  (media = image -> startswith tf NO_DATE_DIR = false -> tf <> ERROR_DIR ->
   total (counts (count_move media tf st)) = S (total (counts st))).
Proof.
  unfold count_move, total. repeat split.
  - repeat case_match; state_simpl; lia.
  - repeat case_match; state_simpl; lia.
  - intros -> -> Hne. rewrite bool_decide_eq_true_2 by assumption.
    state_simpl. lia.
Qed.

(** The generic move: it fails with the state as it was up to the log and
    to a copy the failed move left, or finds the source to be a duplicate of
    a file on disk, or moves it to a path that was free. *)
Lemma generic_move_outcome (it : item) (media : media_type) (tf : string)
    (cur : option string) (st : run_state) :
  let src := str (source_path it) in
  match generic_move it media tf cur st with
  | Hangs => False
  | Raised e st' =>
      left_behind src e (fs st) (fs st') /\ counts st' = counts st /\
      hashes_in_destination st' = hashes_in_destination st
  | Done st' =>
      (hashes_in_destination st' = hashes_in_destination st /\
       ((fs st' = fs st /\ counts st' = counts (incr_error st)) \/
        (fs st' = delete src (fs st) /\
         remove_denied it = false /\
         counts st' = counts (incr_duplicate_deleted st))))
      \/
      (exists d nd,
         fs st !! d = None /\ fs st !! src = Some nd /\
         fs st' = <[d := nd]> (delete src (fs st)) /\
         counts st' = counts (count_move media tf st) /\
         hashes_in_destination st'
         = if truthy cur
           then setdefault_add tf cur (hashes_in_destination st)
           else hashes_in_destination st)
  end.
Proof.
  cbn zeta. unfold generic_move.
  destruct (resolve_conflict_result it (suffix (source_path it)) tf
              (tf // name (source_path it)) cur st)
    as (k & r & st1 & -> & Hh & Hres).
  destruct Hres as [(Hfree & -> & Hfs & Hc) | (_ & _ & -> & Hrm)].
  - rewrite Hfs.
    destruct (shutil_move (move_exn it) (move_leftover it)
                (str (source_path it)) _ (fs st)) as [[e m]|m] eqn:Hmv.
    + state_simpl. split; [|auto].
      apply exists_false in Hfree.
      eapply shutil_move_left_behind; eassumption.
    + apply shutil_move_inr in Hmv as (nd & Hnd & _ & ->).
      apply exists_false in Hfree.
      pose proof (count_move_frame media tf (logging INFO (set_fs
        (<[candidate it (suffix (source_path it)) tf
             (tf // name (source_path it)) k := nd]>
           (delete (str (source_path it)) (fs st))) st1))) as (F1 & F2 & _).
      pose proof (count_move_counts media tf (logging INFO (set_fs
        (<[candidate it (suffix (source_path it)) tf
             (tf // name (source_path it)) k := nd]>
           (delete (str (source_path it)) (fs st))) st1)) st Hc) as F3.
      destruct (truthy cur); right; eexists _, nd;
        (split; [exact Hfree|]); (split; [exact Hnd|]); state_simpl;
        rewrite ?F1, ?F2, ?F3, ?Hh; auto.
  - left. split; [assumption|].
    destruct (os_remove (remove_denied it) (str (source_path it)) (fs st))
      as [e|m] eqn:E.
    + left. assumption.
    + right. apply os_remove_inr in E as (-> & _ & Hd).
      destruct Hrm; auto.
Qed.

(** The HEIC branch never raises: the source is a duplicate of a file on
    disk, or it is converted to a path that was free, or the conversion
    fails and the original is moved to the errors folder under its own
    name. *)
Lemma convert_heic_outcome (it : item) (tf : string) (cur : option string)
    (st : run_state) :
  let src := str (source_path it) in
  match convert_heic it tf cur st with
  | Done st' =>
      (hashes_in_destination st' = hashes_in_destination st /\
       ((fs st' = fs st /\ counts st' = counts (incr_error st)) \/
        (fs st' = delete src (fs st) /\
         remove_denied it = false /\
         counts st' = counts (incr_duplicate_deleted st))))
      \/
      (exists d jpeg,
         fs st !! d = None /\ save_result it = inr jpeg /\
         is_Some (fs st !! src) /\
         (fs st' = delete src (<[d := jpeg]> (fs st)) \/
          fs st' = <[d := jpeg]> (fs st)) /\
         counts st' = counts (count_move image tf (incr_heic_converted st)) /\
         hashes_in_destination st'
         = setdefault_add tf cur (hashes_in_destination st))
      \/
      (exists d e,
         fs st !! d = None /\
         image_save (save_result it) src d (fs st) = inl e /\
         hashes_in_destination st' = hashes_in_destination st /\
         counts st' = counts (incr_error st) /\
         fs st' = match shutil_move (error_move_exn it)
                          (error_move_leftover it) src
                          (ERROR_DIR // name (source_path it)) (fs st) with
                  | inr m | inl (_, m) => m
                  end)
  | _ => False
  end.
Proof.
  cbn zeta. unfold convert_heic.
  destruct (resolve_conflict_result it ".jpg" tf
              (tf // (stem (source_path it) +:+ ".jpg")) cur st)
    as (k & r & st1 & -> & Hh & Hres).
  destruct Hres as [(Hfree & -> & Hfs & Hc) | (_ & _ & -> & Hrm)].
  - apply exists_false in Hfree. state_simpl. rewrite Hfs.
    destruct (image_save (save_result it) (str (source_path it)) _ (fs st))
      as [e|m] eqn:Hsave.
    + destruct (shutil_move (error_move_exn it) (error_move_leftover it)
                  (str (source_path it)) _ (fs st)) as [[move_e m]|m];
        right; right; eexists _, e; (split; [exact Hfree|]);
        (split; [exact Hsave|]); state_simpl; rewrite ?Hh, ?Hc; auto.
    + right; left. apply image_save_inr in Hsave as (jpeg & Hres & Hsrc & ->).
      eexists _, jpeg. split; [exact Hfree|]. split; [exact Hres|].
      split; [exact Hsrc|]. state_simpl.
      match goal with
      | |- context [count_move image tf ?s] =>
          pose proof (count_move_frame image tf s) as (F1 & F2 & _);
          pose proof (count_move_counts image tf s (incr_heic_converted st)) as F3
      end.
      rewrite F1, F2, F3.
      * destruct (os_remove (remove_denied it) (str (source_path it)) _)
          as [e|m] eqn:E; state_simpl; rewrite ?Hh.
        -- auto.
        -- apply os_remove_inr in E as (-> & _). auto.
      * destruct (os_remove (remove_denied it) (str (source_path it)) _);
          state_simpl; now rewrite Hc.
  - left. split; [assumption|].
    destruct (os_remove (remove_denied it) (str (source_path it)) (fs st))
      as [e|m] eqn:E.
    + left. assumption.
    + right. apply os_remove_inr in E as (-> & _ & Hd).
      destruct Hrm; auto.
Qed.

Lemma total_incr (st : run_state) :
  total (counts (incr_moved st)) = S (total (counts st)) /\
  total (counts (incr_video_moved st)) = S (total (counts st)) /\
  total (counts (incr_heic_converted st)) = S (total (counts st)) /\
  total (counts (incr_no_date st)) = S (total (counts st)) /\
  total (counts (incr_archive_moved st)) = S (total (counts st)) /\
  total (counts (incr_deleted_non_media st)) = S (total (counts st)) /\
  total (counts (incr_error st)) = S (total (counts st)) /\
  total (counts (incr_skipped st)) = S (total (counts st)) /\
  total (counts (incr_duplicate_deleted st)) = S (total (counts st)).
Proof. unfold total. state_simpl. repeat split; lia. Qed.

(** Closes goals about counters and totals once the final counters are
    known in terms of the initial ones. *)
Ltac counters :=
  unfold total in *; state_simpl;
  repeat match goal with
  | H : counts _ = _ |- _ => rewrite H in *; clear H
  end;
  state_simpl; try lia.

Lemma no_new_files_delete (p : string) (st st' : run_state) :
  fs st' = delete p (fs st) -> no_new_files st st'.
Proof.
  intros E q Hq. rewrite E. destruct (decide (p = q)) as [-> | Hne].
  - apply lookup_delete_eq.
  - now rewrite lookup_delete_ne.
Qed.

Lemma no_new_files_same (st st' : run_state) :
  fs st' = fs st -> no_new_files st st'.
Proof. intros E q Hq. now rewrite E. Qed.

(** Classification leaves the files and the dictionary alone unless it
    deletes a non-media file; whatever it does not count yet is an image on
    its way to a year folder. *)
Lemma classify_outcome (it : item) (st : run_state) :
  match classify it st with
  | Finished st' =>
      hashes_in_destination st' = hashes_in_destination st /\
      no_new_files st st' /\
      (forall p, p <> str (source_path it) -> fs st' !! p = fs st !! p) /\
      total (counts st') = S (total (counts st)) /\
      error_count (counts st) <= error_count (counts st')
  | Media media tf st' =>
      fs st' = fs st /\
      hashes_in_destination st' = hashes_in_destination st /\
      error_count (counts st) <= error_count (counts st') /\
      total (counts st) <= total (counts st') /\
      exists tfs, tf = Some tfs /\
        (total (counts st) < total (counts st') \/
         (media = image /\ startswith tfs NO_DATE_DIR = false /\
          tfs <> ERROR_DIR))
  end.
Proof.
  destruct (elem (lower (suffix (source_path it))) IMAGE_EXTENSIONS) eqn:Himg.
  { destruct (classify_image it st Himg) as (st' & -> & Hfs & Hh & Hc).
    cbn zeta in Hc.
    pose proof (get_date_taken_cases (source_path it) (decoder it) st) as Hy.
    cbn zeta in Hy.
    destruct Hy as [Hy | [Hy | (y & Hy & Hlen)]]; rewrite Hy in *.
    - rewrite bool_decide_eq_false_2 in * by discriminate. cbn [truthy] in *.
      split; [assumption|]. split; [assumption|]. split; [counters|].
      split; [counters|]. eexists; split; [reflexivity|]. left. counters.
    - rewrite bool_decide_eq_true_2 in * by reflexivity.
      split; [assumption|]. split; [assumption|]. split; [counters|].
      split; [counters|]. eexists; split; [reflexivity|]. left. counters.
    - rewrite bool_decide_eq_false_2 in *
        by (intros [= ->]; discriminate).
      rewrite (truthy_length_4 y Hlen) in *.
      split; [assumption|]. split; [assumption|]. split; [counters|].
      split; [counters|]. eexists; split; [reflexivity|]. right.
      auto using year_folder_not_no_date, year_folder_not_errors. }
  unfold classify. rewrite Himg.
  destruct (elem (lower (suffix (source_path it))) VIDEO_EXTENSIONS).
  { unfold determine_target.
    rewrite bool_decide_eq_false_2 by discriminate. cbn [truthy].
    destruct (get_file_size_category_frame (str (source_path it)) st)
      as (Hfs & Hc & Hh & _).
    destruct (get_file_size_category (str (source_path it)) st) as [tier st1].
    state_simpl.
    split; [assumption|]. split; [assumption|]. split; [counters|].
    split; [counters|]. eexists; split; [reflexivity|]. left. counters. }
  destruct (elem (lower (suffix (source_path it))) ARCHIVE_EXTENSIONS).
  { cbn [determine_target]. state_simpl.
    split; [reflexivity|]. split; [reflexivity|]. split; [counters|].
    split; [counters|]. eexists; split; [reflexivity|]. left. counters. }
  destruct (os_remove (remove_denied it) (str (source_path it)) (fs st))
    as [e|m] eqn:E.
  - state_simpl. split; [reflexivity|].
    split; [now apply no_new_files_same|]. split; [reflexivity|].
    split; counters.
  - apply os_remove_inr in E as (-> & _). state_simpl.
    split; [reflexivity|].
    split; [now apply (no_new_files_delete (str (source_path it)))|].
    split; [intros p Hp; now rewrite lookup_delete_ne|].
    split; counters.
Qed.

Lemma generic_move_placement (it : item) (media : media_type) (tf : string)
    (cur : option string) (st : run_state) :
  match generic_move it media tf cur st with
  | Hangs => False
  | Raised e st' =>
      left_behind (str (source_path it)) e (fs st) (fs st') /\
      counts st' = counts st /\
      hashes_in_destination st' = hashes_in_destination st
  | Done st' => placement media tf cur st st'
  end.
Proof.
  pose proof (generic_move_outcome it media tf cur st) as H. cbn zeta in H.
  destruct (generic_move it media tf cur st) as [st'|e st'|]; [|exact H..].
  pose proof (count_move_total media tf st) as (T1 & T2 & T3).
  unfold placement.
  destruct H as [(Hh & [(Hfs & Hc) | (Hfs & _ & Hc)])
                | (d & nd & Hd & Hnd & Hfs & Hc & Hh)].
  - split; [now apply hashes_grow_refl|]. split; [counters|].
    split; [counters|]. split; [intros; counters|]. right; left. counters.
  - split; [now apply hashes_grow_refl|]. split; [counters|].
    split; [counters|]. split; [intros; counters|]. left.
    split; [now apply (no_new_files_delete (str (source_path it)))|counters].
  - rewrite Hc. split.
    { intros B x Hx. rewrite Hh. destruct (truthy cur); [|assumption].
      now apply setdefault_add_grow. }
    split; [lia|]. split; [lia|]. split; [intros; rewrite T3; auto|].
    right; right. intros Ht. rewrite Hh, Ht. apply setdefault_add_recorded.
Qed.

Lemma convert_heic_placement (it : item) (tf : string) (cur : option string)
    (st : run_state) :
  match convert_heic it tf cur st with
  | Done st' =>
      placement image tf cur st st' /\
      total (counts st) < total (counts st')
  | _ => False
  end.
Proof.
  pose proof (convert_heic_outcome it tf cur st) as H. cbn zeta in H.
  destruct (convert_heic it tf cur st) as [st'|e st'|]; [|exact H..].
  pose proof (count_move_total image tf (incr_heic_converted st))
    as (T1 & T2 & _).
  pose proof (total_incr st) as (_ & _ & T3 & _).
  unfold placement.
  destruct H as [(Hh & [(Hfs & Hc) | (Hfs & _ & Hc)])
                | [(d & jpeg & Hd & Hres & Hsrc & Hfs & Hc & Hh)
                  | (d & e & Hd & Hsave & Hh & Hc & Hfs)]].
  - split; [|counters]. split; [now apply hashes_grow_refl|].
    split; [counters|]. split; [counters|]. split; [intros; counters|].
    right; left. counters.
  - split; [|counters]. split; [now apply hashes_grow_refl|].
    split; [counters|]. split; [counters|]. split; [intros; counters|]. left.
    split; [now apply (no_new_files_delete (str (source_path it)))|counters].
  - rewrite Hc. split; [|lia]. split.
    { intros B x Hx. rewrite Hh. now apply setdefault_add_grow. }
    split; [rewrite T2; cbn; lia|]. split; [lia|]. split; [intros; lia|].
    right; right. intros _. rewrite Hh. apply setdefault_add_recorded.
  - split; [|counters]. split; [now apply hashes_grow_refl|].
    split; [counters|]. split; [counters|]. split; [intros; counters|].
    right; left. counters.
Qed.

Lemma place_placement (it : item) (media : media_type) (file_ext tf : string)
    (cur : option string) (st : run_state) :
  match place it media file_ext tf cur st with
  | Hangs => False
  | Raised e st' =>
      left_behind (str (source_path it)) e (fs st) (fs st') /\
      counts st' = counts st /\
      hashes_in_destination st' = hashes_in_destination st
  | Done st' => placement media tf cur st st'
  end.
Proof.
  unfold place.
  destruct media; try apply generic_move_placement.
  destruct (elem file_ext HEIC_EXTENSIONS); [|apply generic_move_placement].
  pose proof (convert_heic_placement it tf cur st) as H.
  destruct (convert_heic it tf cur st); tauto.
Qed.

Lemma placement_weaken (media : media_type) (tf tf0 : string)
    (cur cur0 : option string) (st0 st st' : run_state) :
  placement media tf cur st st' ->
  fs st = fs st0 -> hashes_grow st0 st ->
  error_count (counts st0) < error_count (counts st) ->
  total (counts st0) < total (counts st) ->
  placement media tf0 cur0 st0 st'.
Proof.
  unfold placement. intros (Hg & He & Ht & _ & _) Hfs Hg0 He0 Ht0.
  split; [eauto using hashes_grow_trans|]. split; [lia|]. split; [lia|].
  split; [intros; lia|]. right; left. lia.
Qed.

(** Lines 276-466 on a target folder. *)
Lemma action_outcome (it : item) (media : media_type) (file_ext tf : string)
    (st : run_state) :
  match action it media file_ext (Some tf) st with
  | Hangs => False
  | Raised e st' =>
      left_behind (str (source_path it)) e (fs st) (fs st') /\
      hashes_grow st st' /\
      error_count (counts st) <= error_count (counts st') /\
      total (counts st) <= total (counts st')
  | Done st' =>
      placement media tf (calculate_hash (str (source_path it)) st).1 st st'
  end.
Proof.
  unfold action. destruct (mkdir_exn it tf) as [e|].
  { split; [now left|]. split; [now apply hashes_grow_refl|]. lia. }
  pose proof (calculate_hash_frame (str (source_path it)) st)
    as (Hfs & Hc & Hh & _).
  destruct (calculate_hash (str (source_path it)) st) as [[h|] st1].
  - cbn [fst snd] in *.
    pose proof (fun B x => setdefault_grow tf B x (hashes_in_destination st1))
      as Hgrow.
    pose proof (elem_of_setdefault tf (Some h) (hashes_in_destination st1))
      as Helem.
    destruct (setdefault tf (hashes_in_destination st1)) as [target_hashes d].
    cbn [fst snd] in *.
    assert (Hg : hashes_grow st (set_hashes d st1)).
    { intros B x Hx. state_simpl. apply Hgrow. now rewrite Hh. }
    destruct (bool_decide (Some h ∈ target_hashes)).
    + state_simpl.
      destruct (os_remove (remove_denied it) (str (source_path it)) (fs st1))
        as [e|m] eqn:E; unfold placement.
      * split; [exact Hg|]. split; [counters|]. split; [counters|].
        split; [intros; counters|]. right; left. counters.
      * apply os_remove_inr in E as (-> & _).
        split; [exact Hg|]. split; [counters|]. split; [counters|].
        split; [intros; counters|]. left. split; [|counters].
        apply (no_new_files_delete (str (source_path it))). state_simpl.
        now rewrite Hfs.
    + pose proof (place_placement it media file_ext tf (Some h)
                    (set_hashes d st1)) as H.
      destruct (place it media file_ext tf (Some h) (set_hashes d st1))
        as [st'|e st'|]; [| |exact H].
      * unfold placement in *. state_simpl.
        destruct H as (Hg' & He & Ht & Hy & Hcases).
        split; [eauto using hashes_grow_trans|].
        rewrite <- Hc. split; [exact He|]. split; [exact Ht|].
        split; [exact Hy|].
        destruct Hcases as [(Hnew & Hlt) | [Hlt | Hrec]]; auto.
        left. split; [|exact Hlt]. intros p Hp. apply Hnew. state_simpl.
        now rewrite Hfs.
      * state_simpl. destruct H as (Hfs' & Hc' & Hh').
        split; [now rewrite <- Hfs|]. split.
        { eapply hashes_grow_trans; [exact Hg|]. now apply hashes_grow_refl. }
        rewrite Hc', Hc. lia.
  - cbn [fst snd] in *. destruct (mkdir_exn it ERROR_DIR) as [e|].
    { state_simpl. split; [left; assumption|].
      split; [now apply hashes_grow_refl|]. rewrite Hc. lia. }
    pose proof (place_placement it media file_ext ERROR_DIR None
                  (incr_error (logging WARNING st1))) as H.
    pose proof (total_incr st1) as (_ & _ & _ & _ & _ & _ & T & _).
    destruct (place it media file_ext ERROR_DIR None
                (incr_error (logging WARNING st1))) as [st'|e st'|]; [| |exact H].
    + eapply placement_weaken; [exact H| | | |].
      * state_simpl. assumption.
      * now apply hashes_grow_refl.
      * counters.
      * counters.
    + destruct H as (Hfs' & Hc' & Hh'). state_simpl.
      split; [now rewrite <- Hfs|].
      split; [apply hashes_grow_refl; congruence|].
      counters.
Qed.

(** The three [except] clauses, on the state [st] in which [e] was raised. *)
Lemma handlers_outcome (it : item) (e : exn) (st : run_state) :
  let src := str (source_path it) in
  let st_err := incr_error (logging ERROR st) in
  match handlers it e st with
  | Hangs => False
  | Raised e' st' =>
      e <> OSError FileNotFoundError /\ e <> OSError PermissionError /\
      is_Some (fs st !! src) /\ error_move_exn it = Some e' /\
      exists k,
        fs st !! error_candidate it k = None /\
        (forall j, j < k -> is_Some (fs st !! error_candidate it j)) /\
        st' = set_fs
                match failed_move_leaves e' (error_move_leftover it) with
                | Some copy => <[error_candidate it k := copy]> (fs st)
                | None => fs st
                end st_err
  | Done st' =>
      match e with
      | OSError FileNotFoundError => st' = incr_skipped (logging WARNING st)
      | OSError PermissionError => st' = st_err
      | _ =>
          (fs st !! src = None /\ st' = st_err) \/
          (exists nd k,
             fs st !! src = Some nd /\ error_move_exn it = None /\
             fs st !! error_candidate it k = None /\
             (forall j, j < k -> is_Some (fs st !! error_candidate it j)) /\
             st' = logging INFO
                     (set_fs (<[error_candidate it k := nd]> (delete src (fs st)))
                        st_err))
      end
  end.
Proof.
  cbn zeta. unfold handlers.
  assert (Hgen :
    e <> OSError FileNotFoundError -> e <> OSError PermissionError ->
    match
      (let st0 := incr_error (logging ERROR st) in
       if exists_ (str (source_path it)) st0
       then
         match error_dest_loop (loop_fuel st0) (source_path it)
                 (ERROR_DIR // name (source_path it)) 1 st0 with
         | Some error_dest =>
             match shutil_move (error_move_exn it) (error_move_leftover it)
                     (str (source_path it)) error_dest (fs st0) with
             | inl (e', m) => Raised e' (set_fs m st0)
             | inr m => Done (logging INFO (set_fs m st0))
             end
         | None => Hangs
         end
       else Done st0)
    with
    | Hangs => False
    | Raised e' st' =>
        e <> OSError FileNotFoundError /\ e <> OSError PermissionError /\
        is_Some (fs st !! str (source_path it)) /\
        error_move_exn it = Some e' /\
        exists k,
          fs st !! error_candidate it k = None /\
          (forall j, j < k -> is_Some (fs st !! error_candidate it j)) /\
          st' = set_fs
                  match failed_move_leaves e' (error_move_leftover it) with
                  | Some copy => <[error_candidate it k := copy]> (fs st)
                  | None => fs st
                  end (incr_error (logging ERROR st))
    | Done st' =>
        (fs st !! str (source_path it) = None /\
         st' = incr_error (logging ERROR st)) \/
        (exists nd k,
           fs st !! str (source_path it) = Some nd /\
           error_move_exn it = None /\
           fs st !! error_candidate it k = None /\
           (forall j, j < k -> is_Some (fs st !! error_candidate it j)) /\
           st' = logging INFO
                   (set_fs (<[error_candidate it k := nd]>
                              (delete (str (source_path it)) (fs st)))
                      (incr_error (logging ERROR st))))
    end).
  { intros Hne1 Hne2. cbn zeta.
    set (st0 := incr_error (logging ERROR st)).
    assert (Hfs0 : fs st0 = fs st) by reflexivity.
    destruct (exists_ (str (source_path it)) st0) eqn:Hex.
    2:{ left. apply exists_false in Hex. rewrite Hfs0 in Hex. auto. }
    apply exists_true in Hex. rewrite Hfs0 in Hex.
    destruct (error_dest_loop_terminates it st0) as (k & -> & Hbefore & Hfree).
    fold (error_candidate it) in *. apply exists_false in Hfree.
    assert (Hjs : forall j, j < k -> is_Some (fs st !! error_candidate it j)).
    { intros j Hj. specialize (Hbefore j Hj). apply exists_true in Hbefore.
      now rewrite Hfs0 in Hbefore. }
    rewrite Hfs0 in *.
    destruct (shutil_move (error_move_exn it) (error_move_leftover it)
                (str (source_path it)) (error_candidate it k) (fs st))
      as [[e' m]|m] eqn:Hmv.
    - apply shutil_move_inl in Hmv as [(Hnone & _) | (_ & Hfault & ->)].
      + destruct Hex as [nd Hnd]. congruence.
      + eauto 10.
    - apply shutil_move_inr in Hmv as (nd & Hnd & Hfault & ->). right.
      exists nd, k. auto. }
  destruct e as [[| |]| |]; try reflexivity;
    (apply Hgen; discriminate).
Qed.

(** The [try] block. *)
Lemma try_body_outcome (it : item) (st : run_state) :
  match try_body it st with
  | Hangs => False
  | Raised e st' =>
      left_behind (str (source_path it)) e (fs st) (fs st') /\
      hashes_grow st st' /\
      error_count (counts st) <= error_count (counts st') /\
      total (counts st) <= total (counts st')
  | Done st' =>
      hashes_grow st st' /\
      error_count (counts st) <= error_count (counts st') /\
      total (counts st) < total (counts st') /\
      (no_new_files st st' \/
       error_count (counts st) < error_count (counts st') \/
       (forall media tf c1,
          classify it st = Media media (Some tf) c1 ->
          let cur := (calculate_hash (str (source_path it)) c1).1 in
          truthy cur = true -> recorded (hashes_in_destination st') tf cur))
  end.
Proof.
  unfold try_body. destruct (in_parents DEST_DIR (source_path it)).
  { split; [now apply hashes_grow_refl|]. split; [counters|].
    split; [counters|]. left. now apply no_new_files_same. }
  pose proof (classify_outcome it st) as Hcl.
  destruct (classify it st) as [media tf c1 | c1].
  2:{ destruct Hcl as (Hh & Hnew & _ & Ht & He).
      split; [now apply hashes_grow_refl|]. split; [exact He|].
      split; [lia|]. left. exact Hnew. }
  destruct Hcl as (Hfs & Hh & He & Ht & tfs & -> & Hcounted).
  pose proof (action_outcome it media (lower (suffix (source_path it))) tfs c1)
    as Hact.
  destruct (action it media (lower (suffix (source_path it))) (Some tfs) c1)
    as [st'|e st'|]; [| |exact Hact].
  - destruct Hact as (Hg & He' & Ht' & Hy & Hcases).
    split. { apply (hashes_grow_trans st c1); [now apply hashes_grow_refl|exact Hg]. }
    split; [lia|]. split.
    { destruct Hcounted as [Hlt | (-> & Hnd & Herr)]; [lia|].
      specialize (Hy eq_refl Hnd Herr). lia. }
    destruct Hcases as [(Hnew & _) | [Hlt | Hrec]].
    + left. intros p Hp. apply Hnew. now rewrite Hfs.
    + right; left. lia.
    + right; right. intros media' tf' c1' [= <- <- <-]. exact Hrec.
  - destruct Hact as (Hfs' & Hg & He' & Ht').
    split; [now rewrite <- Hfs|]. split.
    { apply (hashes_grow_trans st c1); [now apply hashes_grow_refl|exact Hg]. }
    lia.
Qed.

(** One iteration: it ends, it forgets no digest, and it counts the file,
    also when the exception of a failed relocation leaves it (an error was
    counted then). *)
Lemma process_file_outcome (it : item) (st : run_state) :
  match process_file it st with
  | Hangs => False
  | Raised e st' =>
      hashes_grow st st' /\
      error_count (counts st) < error_count (counts st') /\
      total (counts st) < total (counts st')
  | Done st' =>
      hashes_grow st st' /\
      error_count (counts st) <= error_count (counts st') /\
      total (counts st) < total (counts st') /\
      (no_new_files st st' \/
       error_count (counts st) < error_count (counts st') \/
       (forall media tf c1,
          classify it st = Media media (Some tf) c1 ->
          let cur := (calculate_hash (str (source_path it)) c1).1 in
          truthy cur = true -> recorded (hashes_in_destination st') tf cur))
  end.
Proof.
  unfold process_file. pose proof (try_body_outcome it st) as Htry.
  destruct (try_body it st) as [st1|e st1|]; [exact Htry| |exact Htry].
  destruct Htry as (Hfs & Hg & He & Ht).
  pose proof (handlers_outcome it e st1) as Hh. cbn zeta in Hh.
  destruct (handlers it e st1) as [st'|e' st'|]; [| |exact Hh].
  - assert (Hcount : hashes_in_destination st' = hashes_in_destination st1 /\
                     total (counts st') = S (total (counts st1)) /\
                     error_count (counts st1) <= error_count (counts st') /\
                     ((e = OSError FileNotFoundError /\ fs st' = fs st1) \/
                      error_count (counts st1) < error_count (counts st'))).
    { destruct e as [[| |]| |];
        repeat match goal with
        | H : _ \/ _ |- _ => destruct H
        | H : _ /\ _ |- _ => destruct H
        | H : exists _, _ |- _ => destruct H
        end; subst st'; (split; [reflexivity|]); (split; [counters|]);
        (split; [counters|]);
        first [left; split; reflexivity | right; counters]. }
    destruct Hcount as (Hh' & Ht' & He' & Hcases).
    split. { apply (hashes_grow_trans st st1); [exact Hg|now apply hashes_grow_refl]. }
    split; [lia|]. split; [lia|].
    destruct Hcases as [(-> & Hsame) | Hlt].
    + left. apply no_new_files_same.
      apply left_behind_not_found in Hfs. congruence.
    + right; left. lia.
  - destruct Hh as (_ & _ & _ & _ & k & _ & _ & ->). state_simpl.
    split.
    { apply (hashes_grow_trans st st1); [exact Hg|now apply hashes_grow_refl]. }
    counters.
Qed.

(** A run forgets no digest and leaves the counters no smaller. *)
Lemma walk_outcome (files : list item) (st : run_state) :
  match walk files st with
  | Hangs => False
  | Raised _ st' | Done st' =>
      hashes_grow st st' /\
      total (counts st) <= total (counts st') /\
      error_count (counts st) <= error_count (counts st')
  end.
Proof.
  revert st. induction files as [|it files IH]; intros st.
  { cbn. split; [now apply hashes_grow_refl | lia]. }
  cbn. pose proof (process_file_outcome it st) as H.
  destruct (process_file it st) as [st1|e st1|]; [| |exact H].
  - specialize (IH st1). destruct H as (Hg & He & Ht & _).
    destruct (walk files st1) as [st'|e st'|]; [| |exact IH];
      destruct IH as (Hg' & Ht' & He');
      (split; [eauto using hashes_grow_trans | lia]).
  - destruct H as (Hg & He & Ht). split; [exact Hg | lia].
Qed.

(** ** The run counters *)

(** *** C3 (as the script behaves): no processed file is dropped from the
    counters.  Every iteration ends and bumps at least one of the nine
    counters, also when the exception of a failed relocation ends the run;
    so a run that finishes has made at least as many increments as it saw
    files.  (A file can bump more than one counter: a converted HEIC photo
    without a date counts as converted and as a no-date file.) *)
Theorem every_file_is_counted (it : item) (files : list item)
    (st : run_state) :
  match process_file it st with
  | Done st' | Raised _ st' => total (counts st) < total (counts st')
  | Hangs => False
  end /\
  match walk files st with
  | Done st' => total (counts st) + length files <= total (counts st')
  | Raised _ st' => total (counts st) < total (counts st')
  | Hangs => False
  end.
Proof.
  split.
  - pose proof (process_file_outcome it st) as H.
    destruct (process_file it st); tauto.
  - clear it. revert st. induction files as [|it files IH]; intros st.
    { cbn. lia. }
    cbn. pose proof (process_file_outcome it st) as H.
    destruct (process_file it st) as [st1|e st1|]; [| |exact H].
    + specialize (IH st1). destruct H as (_ & _ & Ht & _).
      destruct (walk files st1); [lia | lia | exact IH].
    + tauto.
Qed.

(** ** Failures of one file *)

Lemma try_body_raised (it : item) (st st1 : run_state) (e : exn) :
  try_body it st = Raised e st1 ->
  left_behind (str (source_path it)) e (fs st) (fs st1).
Proof.
  intros H. pose proof (try_body_outcome it st) as Ho. rewrite H in Ho.
  tauto.
Qed.

Lemma process_file_raised (it : item) (st st1 : run_state) (e : exn) :
  try_body it st = Raised e st1 -> process_file it st = handlers it e st1.
Proof. unfold process_file. now intros ->. Qed.


(** *** C7 (as the script behaves): an error outcome is counted, but the
    file is not always moved to the errors folder, and not with
    conflict-resolved naming after a failed conversion.  When
    [PermissionError] leaves the [try] block (raised by [mkdir] or by
    [shutil.move]), an error is logged and counted and the file stays at its
    source.  After a failed HEIC conversion an error is counted and the
    original is moved to the errors folder under its own name, whatever is
    there; when that move fails too, the file stays at its source, beside
    whatever the failed move left under that name. *)
Theorem error_outcomes_and_relocation (it : item) :
  (forall st st1,
     try_body it st = Raised (OSError PermissionError) st1 ->
     let src := str (source_path it) in
     process_file it st = Done (incr_error (logging ERROR st1)) /\
     fs st1 !! src = fs st !! src /\
     left_behind src (OSError PermissionError) (fs st) (fs st1)) /\
  (forall tf cur st d st1 e nd,
     let src := str (source_path it) in
     let error_dest := ERROR_DIR // name (source_path it) in
     resolve_conflict (loop_fuel st) it ".jpg" tf cur
       (tf // (stem (source_path it) +:+ ".jpg")) 1 st = Some (Some d, st1) ->
     save_result it = inl e ->
     fs st !! src = Some nd ->
     exists st',
       convert_heic it tf cur st = Done st' /\
       error_count (counts st') = S (error_count (counts st)) /\
       fs st' = match error_move_exn it with
                | None => <[error_dest := nd]> (delete src (fs st))
                | Some move_e =>
                    match failed_move_leaves move_e (error_move_leftover it) with
                    | Some copy => <[error_dest := copy]> (fs st)
                    | None => fs st
                    end
                end).
Proof.
  split.
  - intros st st1 Hraise. cbn zeta.
    pose proof (try_body_raised _ _ _ _ Hraise) as Hleft.
    split; [now rewrite (process_file_raised _ _ _ _ Hraise)|].
    split; [eapply left_behind_source; eassumption | exact Hleft].
  - intros tf cur st d st1 e nd src error_dest Hloop Hsave Hnd.
    destruct (resolve_conflict_result it ".jpg" tf
                (tf // (stem (source_path it) +:+ ".jpg")) cur st)
      as (k & r & st1' & Hloop' & Hh & Hres).
    rewrite Hloop in Hloop'. injection Hloop' as <- <-.
    destruct Hres as [(_ & _ & Hfs & Hc) | (_ & _ & [=] & _)].
    unfold convert_heic. rewrite Hloop. state_simpl. unfold image_save.
    rewrite Hfs. fold src. rewrite Hnd, Hsave. unfold shutil_move.
    state_simpl. rewrite ?Hfs. fold src. rewrite Hnd.
    destruct (error_move_exn it); eexists; (split; [reflexivity|]);
      state_simpl; rewrite ?Hc, ?Hfs; auto.
Qed.

(** ** Duplicates within a run *)

Lemma classify_media_duplicates (it : item) (st c : run_state)
    (media : media_type) (tf : option string) :
  classify it st = Media media tf c ->
  duplicate_deleted_count (counts c) = duplicate_deleted_count (counts st).
Proof.
  destruct (elem (lower (suffix (source_path it))) IMAGE_EXTENSIONS) eqn:Himg.
  { destruct (classify_image it st Himg) as (st' & -> & _ & _ & Hc).
    intros [= _ _ <-]. rewrite Hc. repeat case_match; reflexivity. }
  unfold classify. rewrite Himg.
  destruct (elem (lower (suffix (source_path it))) VIDEO_EXTENSIONS).
  { unfold determine_target.
    rewrite bool_decide_eq_false_2 by discriminate. cbn [truthy].
    destruct (get_file_size_category_frame (str (source_path it)) st)
      as (_ & Hc & _).
    destruct (get_file_size_category (str (source_path it)) st) as [tier st1].
    intros [= _ _ <-]. state_simpl. now rewrite Hc. }
  destruct (elem (lower (suffix (source_path it))) ARCHIVE_EXTENSIONS).
  { intros [= _ _ <-]. reflexivity. }
  destruct (os_remove _ _ _); discriminate.
Qed.

(** A file whose digest is already recorded for its folder: the source is
    deleted, or an error is counted when it cannot be. *)
Lemma action_duplicate (it : item) (media : media_type) (file_ext tf : string)
    (h : string) (st : run_state) :
  mkdir_exn it tf = None ->
  (calculate_hash (str (source_path it)) st).1 = Some h ->
  recorded (hashes_in_destination st) tf (Some h) ->
  exists st',
    action it media file_ext (Some tf) st = Done st' /\
    if remove_denied it
    then fs st' = fs st /\ counts st' = counts (incr_error st)
    else fs st' = delete (str (source_path it)) (fs st) /\
         counts st' = counts (incr_duplicate_deleted st).
Proof.
  intros Hmk Hhash Hrec. unfold action. rewrite Hmk.
  assert (Hsrc : is_Some (fs st !! str (source_path it))).
  { rewrite calculate_hash_lookup in Hhash.
    destruct (fs st !! str (source_path it)); [eauto | discriminate]. }
  pose proof (calculate_hash_frame (str (source_path it)) st)
    as (Hfs & Hc & Hh & _).
  destruct (calculate_hash (str (source_path it)) st) as [cur st1].
  cbn [fst snd] in *. subst cur.
  pose proof (elem_of_setdefault tf (Some h) (hashes_in_destination st1))
    as Helem.
  destruct (setdefault tf (hashes_in_destination st1)) as [target_hashes d].
  cbn [fst snd] in *.
  rewrite bool_decide_eq_true_2 by (apply Helem; now rewrite Hh).
  state_simpl. unfold os_remove. rewrite Hfs.
  destruct Hsrc as [nd ->].
  destruct (remove_denied it); eexists; (split; [reflexivity|]);
    state_simpl; rewrite Hc; auto.
Qed.

(** *** C2 (as the script behaves): once a file with a (non-empty) digest
    has been placed in a folder without error, its digest is recorded for
    the folder and stays recorded for the rest of the run.  A later file
    with the same digest bound for the same folder is never written to the
    destination: no path other than its own source changes.  Its source is
    deleted and counted as a deleted duplicate when the deletion succeeds;
    when the deletion fails, the file stays and an error is counted
    instead. *)
Theorem duplicate_in_run_is_not_placed (it1 it2 : item) (files : list item)
    (st0 st1 st2 c1 c2 : run_state) (media1 media2 : media_type)
    (B h : string) :
  h <> "" ->
  classify it1 st0 = Media media1 (Some B) c1 ->
  (calculate_hash (str (source_path it1)) c1).1 = Some h ->
  process_file it1 st0 = Done st1 ->
  error_count (counts st1) = error_count (counts st0) ->
  (exists p, fs st0 !! p = None /\ is_Some (fs st1 !! p)) ->
  walk files st1 = Done st2 ->
  in_parents DEST_DIR (source_path it2) = false ->
  classify it2 st2 = Media media2 (Some B) c2 ->
  (calculate_hash (str (source_path it2)) c2).1 = Some h ->
  mkdir_exn it2 B = None ->
  recorded (hashes_in_destination st1) B (Some h) /\
  exists st3,
    process_file it2 st2 = Done st3 /\
    (forall p, p <> str (source_path it2) -> fs st3 !! p = fs st2 !! p) /\
    (remove_denied it2 = false ->
     fs st3 !! str (source_path it2) = None /\
     duplicate_deleted_count (counts st3)
     = S (duplicate_deleted_count (counts st2))) /\
    (remove_denied it2 = true ->
     fs st3 = fs st2 /\
     duplicate_deleted_count (counts st3) = duplicate_deleted_count (counts st2) /\
     error_count (counts st2) < error_count (counts st3)).
Proof.
  intros Hh Hcl1 Hhash1 Hproc1 Herr1 (p & Hfree & Hnew) Hwalk Hpar Hcl2 Hhash2
    Hmk.
  assert (Hrec1 : recorded (hashes_in_destination st1) B (Some h)).
  { pose proof (process_file_outcome it1 st0) as H. rewrite Hproc1 in H.
    destruct H as (_ & _ & _ & [Hno | [Hlt | Hrec]]).
    - apply Hno in Hfree. rewrite Hfree in Hnew. now destruct Hnew.
    - lia.
    - specialize (Hrec _ _ _ Hcl1). cbn zeta in Hrec. rewrite Hhash1 in Hrec.
      apply Hrec. cbn. destruct h; [congruence | reflexivity]. }
  split; [exact Hrec1|].
  assert (Hrec2 : recorded (hashes_in_destination st2) B (Some h)).
  { pose proof (walk_outcome files st1) as H. rewrite Hwalk in H.
    destruct H as (Hg & _). now apply Hg. }
  pose proof (classify_outcome it2 st2) as Hco. rewrite Hcl2 in Hco.
  destruct Hco as (Hfs & Hhs & He & _).
  pose proof (classify_media_duplicates _ _ _ _ _ Hcl2) as Hdup.
  destruct (action_duplicate it2 media2 (lower (suffix (source_path it2))) B h
              c2 Hmk Hhash2) as (st3 & Hact & Hres).
  { now rewrite Hhs. }
  exists st3. split.
  { unfold process_file, try_body. rewrite Hpar, Hcl2, Hact. reflexivity. }
  destruct (remove_denied it2).
  - destruct Hres as (Hfs3 & Hc3). split; [intros q _; congruence|].
    split; [discriminate|]. intros _. split; [congruence|]. rewrite Hc3.
    state_simpl. lia.
  - destruct Hres as (Hfs3 & Hc3). split.
    { intros q Hq. rewrite Hfs3, lookup_delete_ne by congruence. now rewrite Hfs. }
    split; [|discriminate]. intros _. rewrite Hfs3, lookup_delete_eq, Hc3.
    state_simpl. now rewrite Hdup.
Qed.

(** * Further properties of the script *)

(** ** The walk and the skip test *)

Lemma append_assoc (s1 s2 s3 : string) :
  (s1 +:+ s2) +:+ s3 = s1 +:+ (s2 +:+ s3).
Proof.
  induction s1 as [|c s1 IH]; [reflexivity|].
  rewrite !append_cons. now rewrite IH.
Qed.

Lemma prefix_exists (a b : string) :
  String.prefix a b = true -> exists r, b = a +:+ r.
Proof.
  revert b. induction a as [|c a IH]; intros b H.
  - exists b. reflexivity.
  - destruct b as [|c' b]; [discriminate|]. simpl in H.
    destruct (ascii_dec c c') as [-> | _]; [|discriminate].
    destruct (IH b H) as (r & ->). exists r. now rewrite append_cons.
Qed.

Lemma under_source_dir (d : string) :
  d = SOURCE_DIR \/ String.prefix (SOURCE_DIR +:+ "/") d = true ->
  exists r, d = SCRIPT_DIR +:+ "/unsorted_photos" +:+ r.
Proof.
  unfold SOURCE_DIR, joinpath. intros [-> | (r & ->)%prefix_exists].
  - exists "". reflexivity.
  - exists ("/" +:+ r). rewrite !append_assoc. reflexivity.
Qed.

(** *** X1: the test [DEST_DIR in source_path.parents] is false for every
    file [os.walk(SOURCE_DIR)] can yield: a file in [unsorted_photos] or in a
    directory below it is never skipped as "already in destination". *)
Theorem walked_file_is_never_skipped (p : Path) :
  parent p = SOURCE_DIR \/
  String.prefix (SOURCE_DIR +:+ "/") (parent p) = true ->
  in_parents DEST_DIR p = false.
Proof.
  intros (r & Hr)%under_source_dir. unfold in_parents. rewrite Hr.
  unfold DEST_DIR, joinpath. apply orb_false_iff. split.
  - apply bool_decide_eq_false. intros H. apply String.app_inj in H.
    cbv [String.append] in H. discriminate.
  - rewrite append_assoc, prefix_append_cancel. reflexivity.
Qed.

(** ** Files that are not media *)

(** *** X2: a file whose lower-cased suffix is in none of the three
    extension sets is deleted at once: it is not hashed, nothing is recorded
    or written for it, and [deleted_non_media_count] grows by one.  When the
    deletion fails (the file is gone, or the deletion is denied) the files
    stay as they are and an error is counted instead. *)
Theorem non_media_file_is_deleted (it : item) (st : run_state) :
  let src := str (source_path it) in
  let file_ext := lower (suffix (source_path it)) in
  in_parents DEST_DIR (source_path it) = false ->
  elem file_ext IMAGE_EXTENSIONS = false ->
  elem file_ext VIDEO_EXTENSIONS = false ->
  elem file_ext ARCHIVE_EXTENSIONS = false ->
  (is_Some (fs st !! src) -> remove_denied it = false ->
   process_file it st
   = Done (logging INFO
             (incr_deleted_non_media (set_fs (delete src (fs st)) st)))) /\
  (fs st !! src = None \/ remove_denied it = true ->
   process_file it st = Done (incr_error (logging ERROR st))).
Proof.
  cbn zeta. intros Hpar Himg Hvid Harc.
  unfold process_file, try_body, classify, os_remove.
  rewrite Hpar, Himg, Hvid, Harc. split.
  - intros [nd ->] ->. reflexivity.
  - intros [-> | ->]; [reflexivity|].
    now destruct (fs st !! str (source_path it)).
Qed.

(** ** Videos *)

Lemma video_extension_is_no_image (file_ext : string) :
  elem file_ext VIDEO_EXTENSIONS = true ->
  elem file_ext IMAGE_EXTENSIONS = false.
Proof.
  unfold elem, VIDEO_EXTENSIONS. intros H%bool_decide_eq_true.
  repeat (apply elem_of_cons in H as [-> | H]; [reflexivity|]).
  now apply elem_of_nil in H.
Qed.

(** *** X3: for a file with a video extension the image library is never
    called: whatever the decoder would do with the file, its target is the
    no-date folder of its size tier, [no_date_count] grows by one, and no
    image handle is opened. *)
Theorem video_is_never_dated (it : item) (st : run_state) :
  elem (lower (suffix (source_path it))) VIDEO_EXTENSIONS = true ->
  let src := str (source_path it) in
  classify it st
  = Media video (Some (NO_DATE_DIR // (get_file_size_category src st).1))
      (logging INFO (incr_no_date (get_file_size_category src st).2)) /\
  open_handles (get_file_size_category src st).2 = open_handles st /\
  counts (incr_no_date (get_file_size_category src st).2)
  = counts (incr_no_date st).
Proof.
  intros Hvid. cbn zeta. unfold classify.
  rewrite (video_extension_is_no_image _ Hvid), Hvid. unfold determine_target.
  rewrite bool_decide_eq_false_2 by discriminate. cbn [truthy].
  destruct (get_file_size_category_frame (str (source_path it)) st)
    as (_ & Hc & _ & Hh).
  destruct (get_file_size_category (str (source_path it)) st) as [tier st1].
  cbn [fst snd] in *. split; [reflexivity|]. split; [exact Hh|].
  state_simpl. now rewrite Hc.
Qed.

(** ** Date extraction *)

(** *** X4: [get_date_taken] answers [None], the string ["error"], or a
    string of exactly four characters (not necessarily digits); for a file
    whose extension is not an image extension it answers [None] and does
    nothing at all.  In every case the files, the counters and the recorded
    digests are as before. *)
Theorem get_date_taken_answers (p : Path) (dec : decode) (st : run_state) :
  let year_or_status := (get_date_taken p dec st).1 in
  let st' := (get_date_taken p dec st).2 in
  (elem (lower (suffix p)) IMAGE_EXTENSIONS = false ->
   get_date_taken p dec st = (None, st)) /\
  (year_or_status = None \/ year_or_status = Some "error" \/
   exists y, year_or_status = Some y /\ String.length y = 4) /\
  fs st' = fs st /\ counts st' = counts st /\
  hashes_in_destination st' = hashes_in_destination st.
Proof.
  cbn zeta. split.
  - intros Hext. unfold get_date_taken. now rewrite Hext.
  - split; [apply get_date_taken_cases | apply get_date_taken_frame].
Qed.

(** *** X5: the handle count after [get_date_taken].  The call leaves one
    more handle open exactly when the file has an image extension, is there,
    [Image.open] succeeds and [img.load()] or [img._getexif()] raises; in
    every other case (no image, file gone, [Image.open] raises, or all calls
    succeed and [img.close()] runs) the count is what it was. *)
Theorem get_date_taken_handle_count (p : Path) (dec : decode)
    (st : run_state) :
  open_handles (get_date_taken p dec st).2
  = if elem (lower (suffix p)) IMAGE_EXTENSIONS
       && bool_decide (is_Some (fs st !! str p))
       && raises_after_open dec
    then S (open_handles st)
    else open_handles st.
Proof.
  unfold get_date_taken, get_date_taken_except, image_open, image_close.
  destruct (elem (lower (suffix p)) IMAGE_EXTENSIONS); [|reflexivity].
  destruct (fs st !! str p) as [nd|] eqn:Hnd.
  - rewrite bool_decide_eq_true_2 by eauto.
    destruct dec; cbn; repeat case_match; reflexivity.
  - rewrite bool_decide_eq_false_2 by (intros [? ?]; discriminate).
    reflexivity.
Qed.

(** ** Size tiers in bytes *)

Lemma Qlt_bool_megabytes (n : Z) (a : Z) (b : positive) :
  Qlt_bool (inject_Z n / inject_Z (1024 * 1024)) (a # b)
  = (n * Zpos b <? a * 1048576)%Z.
Proof.
  unfold Qlt_bool, Qle_bool, Qdiv, Qmult.
  change (/ inject_Z (1024 * 1024))%Q with (1 # 1048576).
  cbn [Qnum Qden inject_Z].
  match goal with
  | |- negb (?x <=? ?y)%Z = (?u <? ?v)%Z =>
      destruct (Z.leb_spec x y); destruct (Z.ltb_spec u v)
  end; cbn [negb]; try reflexivity; lia.
Qed.

(** *** X6: the tiers of [get_file_size_category] in bytes.  A file of
    fewer than 524288 bytes is tiny, from 524288 small, from 1048576 medium,
    from 2097152 large, from 5242880 xlarge, and from 10485760 bytes on
    huge: each lower bound belongs to the larger tier. *)
Theorem get_file_size_category_bytes (file_path : string) (nd : fnode)
    (st : run_state) :
  fs st !! file_path = Some nd ->
  get_file_size_category file_path st
  = (size_category_of_bytes (st_size nd), st).
Proof.
  intros Hnd. unfold get_file_size_category, size_category_of_bytes.
  rewrite Hnd.
  change 0.5%Q with (5 # 10). change 1%Q with (1 # 1). change 2%Q with (2 # 1).
  change 5%Q with (5 # 1). change 10%Q with (10 # 1).
  rewrite !Qlt_bool_megabytes.
  repeat match goal with
  | |- context [(?x <? ?y)%Z] => destruct (Z.ltb_spec x y)
  end; try reflexivity; lia.
Qed.

(** ** Placing a file *)


Lemma calculate_hash_unreadable (p : string) (nd : fnode) (st : run_state) :
  fs st !! p = Some nd -> sha256 nd = None ->
  calculate_hash p st = (None, logging ERROR st).
Proof. intros Hnd Hh. unfold calculate_hash. now rewrite Hnd, Hh. Qed.

Lemma place_generic (it : item) (media : media_type) (file_ext tf : string)
    (cur : option string) (st : run_state) :
  (media = image -> elem file_ext HEIC_EXTENSIONS = false) ->
  place it media file_ext tf cur st = generic_move it media tf cur st.
Proof.
  intros H. unfold place. destruct media; try reflexivity.
  now rewrite H.
Qed.

Lemma resolve_conflict_free (it : item) (ext tf : string)
    (cur : option string) (dest : string) (counter : nat) (st : run_state)
    (fuel : nat) :
  fs st !! dest = None ->
  resolve_conflict (S fuel) it ext tf cur dest counter st
  = Some (Some dest, st).
Proof.
  intros H. cbn [resolve_conflict].
  now rewrite (proj2 (exists_false dest st) H).
Qed.


(** *** X8: a successful HEIC/HEIF conversion to a free name
    [target_folder / stem.jpg] writes the JPEG there, counts the file as
    converted, and records for the folder the digest of the original file
    (not of the JPEG).  The original is deleted; when that deletion is
    denied, the original stays beside the JPEG and this is logged but not
    counted as an error. *)
Theorem heic_is_converted (it : item) (tf : string) (cur : option string)
    (st : run_state) (nd jpeg : fnode) :
  let src := str (source_path it) in
  let dest := tf // (stem (source_path it) +:+ ".jpg") in
  fs st !! src = Some nd ->
  fs st !! dest = None ->
  save_result it = inr jpeg ->
  exists st',
    convert_heic it tf cur st = Done st' /\
    fs st' = (if remove_denied it then <[dest := jpeg]> (fs st)
              else delete src (<[dest := jpeg]> (fs st))) /\
    counts st' = counts (count_move image tf (incr_heic_converted st)) /\
    error_count (counts st') = error_count (counts st) /\
    hashes_in_destination st'
    = setdefault_add tf cur (hashes_in_destination st).
Proof.
  cbn zeta. intros Hnd Hfree Hsave.
  assert (Hne : tf // (stem (source_path it) +:+ ".jpg")
                <> str (source_path it)) by congruence.
  unfold convert_heic, loop_fuel. rewrite resolve_conflict_free by assumption.
  unfold image_save. state_simpl. rewrite Hnd, Hsave. state_simpl.
  unfold os_remove. rewrite lookup_insert_ne, Hnd by assumption.
  match goal with
  | |- context [count_move image tf ?s] =>
      pose proof (count_move_frame image tf s) as (F1 & F2 & _);
      pose proof (count_move_counts image tf s (incr_heic_converted st)) as F3;
      pose proof (count_move_total image tf (incr_heic_converted st))
        as (_ & F4 & _)
  end.
  eexists. split; [reflexivity|]. rewrite F1, F2, F3, F4.
  - destruct (remove_denied it); state_simpl; auto.
  - destruct (remove_denied it); reflexivity.
Qed.

Lemma fingerprint_match_None (p : string) (st : run_state) :
  fingerprint_match None p st = false.
Proof.
  unfold fingerprint_match. destruct (calculate_hash p st).1; [|reflexivity].
  rewrite bool_decide_eq_false_2 by discriminate. apply andb_false_r.
Qed.

Lemma count_move_errors (media : media_type) (st : run_state) :
  count_move media ERROR_DIR st = st.
Proof.
  assert (H : startswith ERROR_DIR NO_DATE_DIR = false).
  { unfold startswith, ERROR_DIR, NO_DATE_DIR, joinpath.
    rewrite prefix_append_cancel. reflexivity. }
  unfold count_move. rewrite H.
  rewrite bool_decide_eq_false_2 by (intros Hne; now apply Hne).
  now destruct media.
Qed.

(** *** X9: a file that is no HEIC/HEIF image, is there but cannot be
    hashed, is sent to the errors folder whatever its target folder was, and
    is never taken for a duplicate: when both folders can be created and the
    move succeeds, one error is counted, the file is moved to the first free
    name among [name], [stem_1.ext], [stem_2.ext], ... in the errors folder,
    and nothing is recorded for it.  (An unhashable HEIC/HEIF image takes
    the conversion branch instead.) *)
Theorem unhashable_file_goes_to_errors (it : item) (media : media_type)
    (file_ext tf : string) (nd : fnode) (st : run_state) :
  let src := str (source_path it) in
  mkdir_exn it tf = None ->
  mkdir_exn it ERROR_DIR = None ->
  move_exn it = None ->
  (media = image -> elem file_ext HEIC_EXTENSIONS = false) ->
  fs st !! src = Some nd ->
  sha256 nd = None ->
  exists k st',
    action it media file_ext (Some tf) st = Done st' /\
    fs st !! error_candidate it k = None /\
    (forall j, j < k -> is_Some (fs st !! error_candidate it j)) /\
    fs st' = <[error_candidate it k := nd]> (delete src (fs st)) /\
    counts st' = counts (incr_error st) /\
    hashes_in_destination st' = hashes_in_destination st.
Proof.
  cbn zeta. intros Hmk Hmke Hmv Hheic Hnd Hh.
  unfold action. rewrite Hmk, (calculate_hash_unreadable _ nd) by assumption.
  rewrite Hmke, place_generic by assumption. unfold generic_move.
  set (st0 := incr_error (logging WARNING (logging ERROR st))).
  destruct (resolve_conflict_from it (suffix (source_path it)) ERROR_DIR
              (ERROR_DIR // name (source_path it)) None st0 (loop_fuel st0) 0
              st0 eq_refl eq_refl eq_refl)
    as (k & r & st1 & _ & Hloop & Hbefore & Hhs & Hres).
  { destruct (free_candidate it (suffix (source_path it)) ERROR_DIR
                (ERROR_DIR // name (source_path it)) st0) as (k & Hk & Hfree).
    exists k. split; [lia | assumption]. }
  cbn [candidate] in Hloop. rewrite Hloop.
  destruct Hres as [(Hfree & -> & Hfs & Hc) | (_ & Hm & _)].
  2:{ rewrite fingerprint_match_None in Hm. discriminate. }
  apply exists_false in Hfree. unfold shutil_move. rewrite Hfs.
  change (fs st0) with (fs st) in *. rewrite Hnd, Hmv.
  exists k. eexists. split; [reflexivity|]. split; [exact Hfree|]. split.
  { intros j Hj. destruct (Hbefore j) as (Hex & _); [lia|].
    now apply exists_true in Hex. }
  rewrite count_move_errors. state_simpl.
  split; [reflexivity|]. split; [|exact Hhs]. now rewrite Hc.
Qed.

(** ** Files that are never touched *)

Lemma keeps_refl (it : item) (m m' : gmap string fnode) :
  m' = m -> keeps it m m'.
Proof. intros -> p x _ H. exact H. Qed.

Lemma keeps_trans (it : item) (m1 m2 m3 : gmap string fnode) :
  keeps it m1 m2 -> keeps it m2 m3 -> keeps it m1 m3.
Proof. unfold keeps. eauto. Qed.

Lemma keeps_delete (it : item) (m m' : gmap string fnode) :
  m' = delete (str (source_path it)) m -> keeps it m m'.
Proof.
  intros -> p x Hp H. rewrite lookup_delete_ne; [exact H|].
  intros <-. apply Hp. now left.
Qed.

Lemma keeps_insert (it : item) (d : string) (x : fnode)
    (m m' : gmap string fnode) :
  m !! d = None -> m' = <[d := x]> m -> keeps it m m'.
Proof.
  intros Hd -> p y _ H. rewrite lookup_insert_ne; [exact H | congruence].
Qed.

Lemma keeps_move (it : item) (d : string) (x : fnode)
    (m m' : gmap string fnode) :
  m !! d = None -> m' = <[d := x]> (delete (str (source_path it)) m) ->
  keeps it m m'.
Proof.
  intros Hd -> p y Hp H. rewrite lookup_insert_ne by congruence.
  rewrite lookup_delete_ne; [exact H|]. intros <-. apply Hp. now left.
Qed.

Lemma keeps_left_behind (it : item) (src : string) (e : exn)
    (m m' : gmap string fnode) :
  left_behind src e m m' -> keeps it m m'.
Proof.
  intros [-> | (_ & _ & d & copy & Hd & ->)]; [now apply keeps_refl|].
  now apply (keeps_insert it d copy).
Qed.

Lemma generic_move_keeps (it : item) (media : media_type) (tf : string)
    (cur : option string) (st : run_state) :
  match generic_move it media tf cur st with
  | Done st' | Raised _ st' => keeps it (fs st) (fs st')
  | Hangs => False
  end.
Proof.
  pose proof (generic_move_outcome it media tf cur st) as H. cbn zeta in H.
  destruct (generic_move it media tf cur st) as [st'|e st'|]; [| |exact H].
  - destruct H as [(_ & [(Hfs & _) | (Hfs & _)]) | (d & nd & Hd & _ & Hfs & _)].
    + now apply keeps_refl.
    + now apply keeps_delete.
    + now apply (keeps_move it d nd).
  - destruct H as (Hfs & _). eapply keeps_left_behind; eassumption.
Qed.

Lemma image_save_inl (res : exn + fnode) (src dst : string)
    (m : gmap string fnode) (e : exn) :
  image_save res src dst m = inl e -> m !! src = None \/ res = inl e.
Proof.
  unfold image_save. destruct (m !! src); [|auto].
  destruct res; [|discriminate]. intros [= <-]. auto.
Qed.

Lemma convert_heic_keeps (it : item) (tf : string) (cur : option string)
    (st : run_state) :
  elem (lower (suffix (source_path it))) HEIC_EXTENSIONS = true ->
  match convert_heic it tf cur st with
  | Done st' => keeps it (fs st) (fs st')
  | _ => False
  end.
Proof.
  intros Hheic.
  pose proof (convert_heic_outcome it tf cur st) as H. cbn zeta in H.
  destruct (convert_heic it tf cur st) as [st'|e st'|]; [|exact H..].
  destruct H as [(_ & [(Hfs & _) | (Hfs & _)])
                | [(d & jpeg & Hd & _ & _ & Hfs & _)
                  | (d & e & _ & Hsave & _ & _ & Hfs)]].
  - now apply keeps_refl.
  - now apply keeps_delete.
  - destruct Hfs as [Hfs | Hfs].
    + apply (keeps_trans it _ (<[d := jpeg]> (fs st))).
      * now apply (keeps_insert it d jpeg).
      * now apply keeps_delete.
    + now apply (keeps_insert it d jpeg).
  - apply image_save_inl in Hsave as [Hgone | Hres].
    + unfold shutil_move in Hfs. rewrite Hgone in Hfs. now apply keeps_refl.
    + destruct (shutil_move (error_move_exn it) (error_move_leftover it)
                  (str (source_path it))
                  (ERROR_DIR // name (source_path it)) (fs st))
        as [[e' m]|m] eqn:Hmv.
      * apply shutil_move_inl in Hmv as [(_ & _ & ->) | (_ & _ & ->)];
          [now apply keeps_refl|].
        destruct (failed_move_leaves e' (error_move_leftover it)) as [copy|];
          [|now apply keeps_refl].
        intros p x Hp Hx. rewrite Hfs, lookup_insert_ne; [exact Hx|].
        intros <-. apply Hp. right. eauto.
      * apply shutil_move_inr in Hmv as (nd & _ & _ & ->).
        intros p x Hp Hx. rewrite Hfs, lookup_insert_ne.
        -- rewrite lookup_delete_ne; [exact Hx|]. intros <-. apply Hp.
           now left.
        -- intros <-. apply Hp. right. eauto.
Qed.

Lemma place_keeps (it : item) (media : media_type) (tf : string)
    (cur : option string) (st : run_state) :
  match place it media (lower (suffix (source_path it))) tf cur st with
  | Done st' | Raised _ st' => keeps it (fs st) (fs st')
  | Hangs => False
  end.
Proof.
  unfold place. destruct media; try apply generic_move_keeps.
  destruct (elem (lower (suffix (source_path it))) HEIC_EXTENSIONS) eqn:Hheic;
    [|apply generic_move_keeps].
  pose proof (convert_heic_keeps it tf cur st Hheic) as H.
  destruct (convert_heic it tf cur st); tauto.
Qed.

Lemma action_keeps (it : item) (media : media_type)
    (tf : option string) (st : run_state) :
  match action it media (lower (suffix (source_path it))) tf st with
  | Done st' | Raised _ st' => keeps it (fs st) (fs st')
  | Hangs => False
  end.
Proof.
  unfold action. destruct tf as [tf|]; [|now apply keeps_refl].
  destruct (mkdir_exn it tf); [now apply keeps_refl|].
  pose proof (calculate_hash_frame (str (source_path it)) st) as (Hfs & _).
  destruct (calculate_hash (str (source_path it)) st) as [[h|] st1];
    cbn [fst snd] in *.
  - destruct (setdefault tf (hashes_in_destination st1)) as [target_hashes d].
    destruct (bool_decide (Some h ∈ target_hashes)).
    + state_simpl.
      destruct (os_remove (remove_denied it) (str (source_path it)) (fs st1))
        as [e|m] eqn:E; state_simpl.
      * now apply keeps_refl.
      * apply os_remove_inr in E as (-> & _). apply keeps_delete. congruence.
    + pose proof (place_keeps it media tf (Some h) (set_hashes d st1)) as H.
      state_simpl. rewrite Hfs in H. exact H.
  - destruct (mkdir_exn it ERROR_DIR); [now apply keeps_refl|].
    pose proof (place_keeps it media ERROR_DIR None
                  (incr_error (logging WARNING st1))) as H.
    state_simpl. rewrite Hfs in H. exact H.
Qed.

Lemma process_file_keeps (it : item) (st : run_state) :
  match process_file it st with
  | Done st' | Raised _ st' => keeps it (fs st) (fs st')
  | Hangs => False
  end.
Proof.
  assert (Htry : match try_body it st with
                 | Done st' | Raised _ st' => keeps it (fs st) (fs st')
                 | Hangs => False
                 end).
  { unfold try_body. destruct (in_parents DEST_DIR (source_path it));
      [now apply keeps_refl|].
    pose proof (classify_outcome it st) as Hcl.
    destruct (classify it st) as [media tf c1 | c1].
    - destruct Hcl as (Hfs & _).
      pose proof (action_keeps it media tf c1) as H. rewrite Hfs in H. exact H.
    - destruct Hcl as (_ & _ & Hother & _). intros p x Hp Hx.
      rewrite Hother; [exact Hx|]. intros ->. apply Hp. now left. }
  unfold process_file.
  destruct (try_body it st) as [st1|e st1|]; [exact Htry| |exact Htry].
  pose proof (handlers_outcome it e st1) as Hh. cbn zeta in Hh.
  assert (Hk : match handlers it e st1 with
               | Done st' | Raised _ st' => keeps it (fs st1) (fs st')
               | Hangs => False
               end).
  { destruct (handlers it e st1) as [st'|e' st'|]; [| |exact Hh].
    - destruct e as [[| |]| |];
        repeat match goal with
        | H : _ \/ _ |- _ => destruct H
        | H : _ /\ _ |- _ => destruct H
        | H : exists _, _ |- _ => destruct H
        end; subst st'; state_simpl;
        first [ now apply keeps_refl
              | eapply keeps_move; [eassumption | reflexivity] ].
    - destruct Hh as (_ & _ & _ & _ & k & Hk & _ & ->). state_simpl.
      destruct (failed_move_leaves e' (error_move_leftover it)) as [copy|];
        [|now apply keeps_refl].
      now apply (keeps_insert it (error_candidate it k) copy). }
  destruct (handlers it e st1) as [st'|e' st'|]; [| |exact Hk];
    eapply keeps_trans; eassumption.
Qed.

(** *** X10: a run never deletes or replaces a file that is not one of its
    inputs.  Every path that holds a file before the run and that is neither
    the source of a processed file nor the errors-folder name of a HEIC/HEIF
    file whose conversion failed, holds the same file when the run has
    finished or was ended by an exception; and the run always ends. *)
Theorem run_keeps_other_files (files : list item) (st : run_state) :
  match walk files st with
  | Done st' | Raised _ st' =>
      forall p x,
        (forall it, it ∈ files -> ~ may_replace it p) ->
        fs st !! p = Some x -> fs st' !! p = Some x
  | Hangs => False
  end.
Proof.
  revert st. induction files as [|it files IH]; intros st.
  { cbn. auto. }
  cbn [walk]. pose proof (process_file_keeps it st) as H.
  destruct (process_file it st) as [st1|e st1|]; [| |exact H].
  - specialize (IH st1).
    destruct (walk files st1) as [st'|e st'|]; [| |exact IH];
      intros p x Hp Hx; apply IH;
      solve [ intros it' Hin; apply Hp; now right
            | apply (H p x); [apply Hp; now left | exact Hx] ].
  - intros p x Hp Hx. apply (H p x); [apply Hp; now left | exact Hx].
Qed.

(** ** Running again over a copy *)






(** ** How much one file can count *)

Lemma prefix_append (a b : string) : String.prefix a (a +:+ b) = true.
Proof.
  induction a as [|c a IH]; [now destruct b|].
  rewrite append_cons. simpl. now destruct (ascii_dec c c).
Qed.

Lemma no_date_folder_uncounted (tier : string) :
  uncounted_folder (NO_DATE_DIR // tier).
Proof. right. unfold startswith, joinpath. apply prefix_append. Qed.

Lemma count_move_bound (media : media_type) (tf : string) (st : run_state) :
  total (counts (count_move media tf st)) <= S (total (counts st)) /\
  ((media = video -> uncounted_folder tf) ->
   video_moved_count (counts (count_move media tf st))
   = video_moved_count (counts st)).
Proof.
  split.
  - unfold count_move, total. repeat case_match; state_simpl; lia.
  - intros Hv. destruct media; try (unfold count_move; repeat case_match;
      state_simpl; reflexivity).
    destruct (Hv eq_refl) as [-> | Hnd].
    + now rewrite count_move_errors.
    + unfold count_move. now rewrite Hnd.
Qed.

Lemma place_counts (it : item) (media : media_type) (file_ext tf : string)
    (cur : option string) (st : run_state) :
  (media = video -> uncounted_folder tf) ->
  match place it media file_ext tf cur st with
  | Hangs => False
  | Raised _ st' => counts st' = counts st
  | Done st' =>
      video_moved_count (counts st') = video_moved_count (counts st) /\
      total (counts st') <= total (counts st) + 2 /\
      (tf = ERROR_DIR -> total (counts st') <= total (counts st) + 1)
  end.
Proof.
  intros Hv.
  assert (Hgen :
    match generic_move it media tf cur st with
    | Hangs => False
    | Raised _ st' => counts st' = counts st
    | Done st' =>
        video_moved_count (counts st') = video_moved_count (counts st) /\
        total (counts st') <= total (counts st) + 2 /\
        (tf = ERROR_DIR -> total (counts st') <= total (counts st) + 1)
    end).
  { pose proof (generic_move_outcome it media tf cur st) as H. cbn zeta in H.
    destruct (generic_move it media tf cur st) as [st'|e st'|];
      [|tauto|exact H].
    destruct H as [(_ & [(_ & Hc) | (_ & _ & Hc)])
                  | (d & nd & _ & _ & _ & Hc & _)].
    - split; [counters|]. split; [counters|]. intros _. counters.
    - split; [counters|]. split; [counters|]. intros _. counters.
    - pose proof (count_move_bound media tf st) as (B1 & B2).
      rewrite Hc. split; [now apply B2|]. split; [lia|].
      intros ->. rewrite count_move_errors. lia. }
  unfold place. destruct media; try exact Hgen.
  destruct (elem file_ext HEIC_EXTENSIONS); [|exact Hgen].
  pose proof (convert_heic_outcome it tf cur st) as H. cbn zeta in H.
  destruct (convert_heic it tf cur st) as [st'|e st'|]; [|contradiction..].
  pose proof (count_move_bound image tf (incr_heic_converted st)) as (B1 & B2).
  pose proof (total_incr st) as (_ & _ & T & _).
  destruct H as [(_ & [(_ & Hc) | (_ & _ & Hc)])
                | [(d & jpeg & _ & _ & _ & _ & Hc & _)
                  | (d & e & _ & _ & _ & Hc & _)]].
  - split; [counters|]. split; [counters|]. intros _. counters.
  - split; [counters|]. split; [counters|]. intros _. counters.
  - rewrite Hc. split; [rewrite B2 by discriminate; reflexivity|].
    split; [lia|]. intros ->. rewrite count_move_errors. lia.
  - split; [counters|]. split; [counters|]. intros _. counters.
Qed.

Lemma action_counts (it : item) (media : media_type) (file_ext tf : string)
    (st : run_state) :
  (media = video -> uncounted_folder tf) ->
  match action it media file_ext (Some tf) st with
  | Hangs => False
  | Raised _ st' =>
      video_moved_count (counts st') = video_moved_count (counts st) /\
      total (counts st') <= total (counts st) + 1
  | Done st' =>
      video_moved_count (counts st') = video_moved_count (counts st) /\
      total (counts st') <= total (counts st) + 2
  end.
Proof.
  intros Hv. unfold action. destruct (mkdir_exn it tf); [split; lia|].
  pose proof (calculate_hash_frame (str (source_path it)) st) as (_ & Hc & _).
  destruct (calculate_hash (str (source_path it)) st) as [[h|] st1];
    cbn [fst snd] in *.
  - destruct (setdefault tf (hashes_in_destination st1)) as [target_hashes d].
    destruct (bool_decide (Some h ∈ target_hashes)).
    + state_simpl.
      destruct (os_remove (remove_denied it) (str (source_path it)) (fs st1));
        split; counters.
    + pose proof (place_counts it media file_ext tf (Some h)
                    (set_hashes d st1) Hv) as H.
      destruct (place it media file_ext tf (Some h) (set_hashes d st1))
        as [st'|e st'|]; [| |exact H]; state_simpl.
      * destruct H as (H1 & H2 & _). rewrite <- Hc. split; [exact H1 | exact H2].
      * rewrite H, Hc. split; lia.
  - destruct (mkdir_exn it ERROR_DIR).
    { state_simpl. rewrite Hc. split; lia. }
    pose proof (place_counts it media file_ext ERROR_DIR None
                  (incr_error (logging WARNING st1)) (fun _ => or_introl eq_refl))
      as H.
    pose proof (total_incr st1) as (_ & _ & _ & _ & _ & _ & T & _).
    destruct (place it media file_ext ERROR_DIR None
                (incr_error (logging WARNING st1))) as [st'|e st'|];
      [| |exact H].
    + destruct H as (H1 & _ & H3). specialize (H3 eq_refl).
      split; [rewrite H1; counters|]. unfold total in *. state_simpl.
      rewrite Hc in *. lia.
    + rewrite H. split; counters.
Qed.

Lemma classify_counts (it : item) (st : run_state) :
  match classify it st with
  | Finished st' =>
      video_moved_count (counts st') = video_moved_count (counts st) /\
      total (counts st') <= total (counts st) + 1
  | Media media tf st' =>
      video_moved_count (counts st') = video_moved_count (counts st) /\
      total (counts st') <= total (counts st) + 1 /\
      exists tfs, tf = Some tfs /\ (media = video -> uncounted_folder tfs)
  end.
Proof.
  destruct (elem (lower (suffix (source_path it))) IMAGE_EXTENSIONS) eqn:Himg.
  { destruct (classify_image it st Himg) as (st' & -> & _ & _ & Hc).
    cbn zeta in Hc. rewrite Hc.
    split; [repeat case_match; reflexivity|].
    split; [repeat case_match; counters|].
    eexists. split; [reflexivity | discriminate]. }
  unfold classify. rewrite Himg.
  destruct (elem (lower (suffix (source_path it))) VIDEO_EXTENSIONS).
  { unfold determine_target.
    rewrite bool_decide_eq_false_2 by discriminate. cbn [truthy].
    destruct (get_file_size_category_frame (str (source_path it)) st)
      as (_ & Hc & _).
    destruct (get_file_size_category (str (source_path it)) st) as [tier st1].
    state_simpl. split; [counters|]. split; [counters|].
    eexists. split; [reflexivity|]. intros _. apply no_date_folder_uncounted. }
  destruct (elem (lower (suffix (source_path it))) ARCHIVE_EXTENSIONS).
  { cbn [determine_target]. split; [counters|]. split; [counters|].
    eexists. split; [reflexivity | discriminate]. }
  destruct (os_remove (remove_denied it) (str (source_path it)) (fs st));
    split; counters.
Qed.

Lemma process_file_counts (it : item) (st : run_state) :
  match process_file it st with
  | Hangs => False
  | Done st' | Raised _ st' =>
      video_moved_count (counts st') = video_moved_count (counts st) /\
      total (counts st') <= total (counts st) + 3
  end.
Proof.
  assert (Htry : match try_body it st with
                 | Hangs => False
                 | Done st' =>
                     video_moved_count (counts st')
                     = video_moved_count (counts st) /\
                     total (counts st') <= total (counts st) + 3
                 | Raised _ st' =>
                     video_moved_count (counts st')
                     = video_moved_count (counts st) /\
                     total (counts st') <= total (counts st) + 2
                 end).
  { unfold try_body. destruct (in_parents DEST_DIR (source_path it));
      [split; counters|].
    pose proof (classify_counts it st) as Hcl.
    destruct (classify it st) as [media tf c1 | c1]; [|split; lia].
    destruct Hcl as (Hv & Ht & tfs & -> & Hcond).
    pose proof (action_counts it media (lower (suffix (source_path it))) tfs c1
                  Hcond) as H.
    destruct (action it media (lower (suffix (source_path it))) (Some tfs) c1);
      [split; lia | split; lia | exact H]. }
  unfold process_file.
  destruct (try_body it st) as [st1|e st1|]; [exact Htry| |exact Htry].
  destruct Htry as (Hv & Ht).
  pose proof (handlers_outcome it e st1) as Hh. cbn zeta in Hh.
  destruct (handlers it e st1) as [st'|e' st'|]; [| |exact Hh].
  - assert (Hc : video_moved_count (counts st')
                 = video_moved_count (counts st1) /\
                 total (counts st') = S (total (counts st1))).
    { destruct e as [[| |]| |];
        repeat match goal with
        | H : _ \/ _ |- _ => destruct H
        | H : _ /\ _ |- _ => destruct H
        | H : exists _, _ |- _ => destruct H
        end; subst st'; split; counters. }
    split; lia.
  - destruct Hh as (_ & _ & _ & _ & k & _ & _ & ->). state_simpl.
    split; [counters|].
    pose proof (total_incr (logging ERROR st1)) as (_ & _ & _ & _ & _ & _ & T & _).
    state_simpl. rewrite T. lia.
Qed.

Lemma walk_counts (files : list item) (st : run_state) :
  match walk files st with
  | Hangs => False
  | Done st' | Raised _ st' =>
      video_moved_count (counts st') = video_moved_count (counts st) /\
      total (counts st') <= total (counts st) + 3 * length files
  end.
Proof.
  revert st. induction files as [|it files IH]; intros st.
  { cbn. split; lia. }
  cbn [walk length]. pose proof (process_file_counts it st) as H.
  destruct (process_file it st) as [st1|e st1|]; [| |exact H].
  - specialize (IH st1).
    destruct (walk files st1) as [st'|e st'|]; [| |exact IH]; split; lia.
  - split; lia.
Qed.

Lemma iter_logging_counts (n : nat) (l : level) (st : run_state) :
  counts (Nat.iter n (logging l) st) = counts st.
Proof. induction n as [|n IH]; [reflexivity | exact IH]. Qed.

(** *** X12: [video_moved_count] is never incremented.  A video is always
    bound for a no-date folder (or, when it cannot be hashed, for the errors
    folder), and for both the counting code after a move does nothing: the
    summary line "Videos moved to year folders" of every run, finished or
    ended by an exception, reports 0. *)
Theorem video_moved_count_stays_zero (m : gmap string fnode)
    (source_is_dir : bool) (files : list item) :
  match sort_photos m source_is_dir files with
  | Done st' | Raised _ st' => video_moved_count (counts st') = 0
  | Hangs => False
  end.
Proof.
  unfold sort_photos. destruct source_is_dir; cbn [negb]; [|reflexivity].
  pose proof (walk_counts files (logging INFO (logging INFO (initial_state m))))
    as H.
  destruct (walk files (logging INFO (logging INFO (initial_state m))))
    as [st'|e st'|]; [| |exact H].
  - rewrite iter_logging_counts. tauto.
  - tauto.
Qed.

(** *** X13: one file makes at most three counter increments, so a run over
    [n] files makes at most [3 * n]; together with C3 every processed file
    is counted between one and three times. *)
Theorem file_is_counted_at_most_three_times (it : item) (files : list item)
    (st : run_state) :
  match process_file it st with
  | Done st' | Raised _ st' => total (counts st') <= total (counts st) + 3
  | Hangs => False
  end /\
  match walk files st with
  | Done st' | Raised _ st' =>
      total (counts st') <= total (counts st) + 3 * length files
  | Hangs => False
  end.
Proof.
  split.
  - pose proof (process_file_counts it st) as H.
    destruct (process_file it st); tauto.
  - pose proof (walk_counts files st) as H.
    destruct (walk files st); tauto.
Qed.

(** ** A HEIC file that was converted before *)


(** ** Archives are counted when they are seen *)

Lemma archive_extension_is_no_media (file_ext : string) :
  elem file_ext ARCHIVE_EXTENSIONS = true ->
  elem file_ext IMAGE_EXTENSIONS = false /\
  elem file_ext VIDEO_EXTENSIONS = false.
Proof.
  unfold elem, ARCHIVE_EXTENSIONS. intros H%bool_decide_eq_true.
  repeat (apply elem_of_cons in H as [-> | H]; [split; reflexivity|]).
  now apply elem_of_nil in H.
Qed.

Lemma count_move_archive_count (media : media_type) (tf : string)
    (st : run_state) :
  archive_moved_count (counts (count_move media tf st))
  = archive_moved_count (counts st).
Proof. unfold count_move. repeat case_match; reflexivity. Qed.

Lemma action_archive_count (it : item) (media : media_type)
    (file_ext tf : string) (st : run_state) :
  match action it media file_ext (Some tf) st with
  | Done st' | Raised _ st' =>
      archive_moved_count (counts st') = archive_moved_count (counts st)
  | Hangs => False
  end.
Proof.
  assert (Hplace : forall tf' cur s,
    match place it media file_ext tf' cur s with
    | Done st' | Raised _ st' =>
        archive_moved_count (counts st') = archive_moved_count (counts s)
    | Hangs => False
    end).
  { intros tf' cur s.
    assert (Hgen :
      match generic_move it media tf' cur s with
      | Done st' | Raised _ st' =>
          archive_moved_count (counts st') = archive_moved_count (counts s)
      | Hangs => False
      end).
    { pose proof (generic_move_outcome it media tf' cur s) as H.
      cbn zeta in H.
      destruct (generic_move it media tf' cur s) as [st'|e st'|];
        [| |exact H].
      - destruct H as [(_ & [(_ & Hc) | (_ & _ & Hc)])
                      | (d & nd & _ & _ & _ & Hc & _)]; rewrite Hc;
          [reflexivity | reflexivity | apply count_move_archive_count].
      - destruct H as (_ & -> & _). reflexivity. }
    unfold place. destruct media; try exact Hgen.
    destruct (elem file_ext HEIC_EXTENSIONS); [|exact Hgen].
    pose proof (convert_heic_outcome it tf' cur s) as H. cbn zeta in H.
    destruct (convert_heic it tf' cur s) as [st'|e st'|]; [|contradiction..].
    destruct H as [(_ & [(_ & Hc) | (_ & _ & Hc)])
                  | [(d & jpeg & _ & _ & _ & _ & Hc & _)
                    | (d & e & _ & _ & _ & Hc & _)]]; rewrite Hc;
      try reflexivity.
    now rewrite count_move_archive_count. }
  unfold action. destruct (mkdir_exn it tf); [reflexivity|].
  pose proof (calculate_hash_frame (str (source_path it)) st) as (_ & Hc & _).
  destruct (calculate_hash (str (source_path it)) st) as [[h|] st1];
    cbn [fst snd] in *.
  - destruct (setdefault tf (hashes_in_destination st1)) as [target_hashes d].
    destruct (bool_decide (Some h ∈ target_hashes)).
    + state_simpl.
      destruct (os_remove (remove_denied it) (str (source_path it)) (fs st1));
        state_simpl; now rewrite Hc.
    + specialize (Hplace tf (Some h) (set_hashes d st1)). state_simpl.
      now rewrite Hc in Hplace.
  - destruct (mkdir_exn it ERROR_DIR); [state_simpl; now rewrite Hc|].
    specialize (Hplace ERROR_DIR None (incr_error (logging WARNING st1))).
    state_simpl. now rewrite Hc in Hplace.
Qed.

(** *** X15: [archive_moved_count] counts the archives that are seen, not
    the archives that are moved.  For every file with an archive extension
    (outside the destination tree) the counter grows by exactly one,
    whatever happens to the file afterwards: moved, dropped as a duplicate,
    sent to the errors folder, or left behind by a failure. *)
Theorem archive_is_counted_when_seen (it : item) (st : run_state) :
  in_parents DEST_DIR (source_path it) = false ->
  elem (lower (suffix (source_path it))) ARCHIVE_EXTENSIONS = true ->
  match process_file it st with
  | Done st' | Raised _ st' =>
      archive_moved_count (counts st') = S (archive_moved_count (counts st))
  | Hangs => False
  end.
Proof.
  intros Hpar Harc.
  destruct (archive_extension_is_no_media _ Harc) as (Himg & Hvid).
  unfold process_file, try_body, classify.
  rewrite Hpar, Himg, Hvid, Harc. cbn [determine_target].
  pose proof (action_archive_count it archive
                (lower (suffix (source_path it))) ARCHIVES_DIR
                (logging INFO (incr_archive_moved st))) as H.
  destruct (action it archive (lower (suffix (source_path it)))
              (Some ARCHIVES_DIR) (logging INFO (incr_archive_moved st)))
    as [st1|e st1|]; [exact H| |exact H].
  pose proof (handlers_outcome it e st1) as Hh. cbn zeta in Hh.
  destruct (handlers it e st1) as [st'|e' st'|]; [| |exact Hh].
  - cbn in H. rewrite <- H.
    destruct e as [[| |]| |];
      repeat match goal with
      | H : _ \/ _ |- _ => destruct H
      | H : _ /\ _ |- _ => destruct H
      | H : exists _, _ |- _ => destruct H
      end; subst st'; reflexivity.
  - destruct Hh as (_ & _ & _ & _ & k & _ & _ & ->). cbn in H.
    rewrite <- H. reflexivity.
Qed.

End Sorter.

(** * The model at work

    The general statements applied to the example files, and runs that show
    where the script departs from its description. *)

(** The year of [beach.jpg] comes from its DateTimeOriginal tag. *)
Lemma beach_year :
  elem (lower (suffix (source_path beach))) IMAGE_EXTENSIONS = true /\
  is_Some (fs example_state !! str (source_path beach)) /\
  accepted (exif_2021 !! 36867%Z) "2021:06:15 10:00:00" /\
  (get_date_taken (source_path beach) (ExifData (Some exif_2021))
     example_state).1 = Some "2021".
Proof.
  assert (Hext : elem (lower (suffix (source_path beach))) IMAGE_EXTENSIONS
                 = true) by reflexivity.
  assert (Hfile : is_Some (fs example_state !! str (source_path beach)))
    by (eexists; reflexivity).
  assert (Hacc : accepted (exif_2021 !! 36867%Z) "2021:06:15 10:00:00").
  { split; [reflexivity|]. split; [simpl; lia|]. split; reflexivity. }
  split; [exact Hext|]. split; [exact Hfile|]. split; [exact Hacc|].
  exact (proj1 (get_date_taken_reads_tags (source_path beach) exif_2021
                  example_state Hext Hfile) _ Hacc).
Defined.

(** [clip.mp4] has 700000 bytes: between 0.5 and 1 MB. *)
Lemma clip_size_tier :
  (0.5 <= size_in_mb {| st_size := 700000; sha256 := Some "e5f6" |})%Q /\
  (size_in_mb {| st_size := 700000; sha256 := Some "e5f6" |} < 1)%Q /\
  (get_file_size_category (str (source_path clip)) example_state).1
  = "small_0.5-1MB".
Proof.
  assert (H1 : (0.5 <= size_in_mb {| st_size := 700000; sha256 := Some "e5f6" |})%Q)
    by (vm_compute; discriminate).
  assert (H2 : (size_in_mb {| st_size := 700000; sha256 := Some "e5f6" |} < 1)%Q)
    by reflexivity.
  split; [exact H1|]. split; [exact H2|].
  pose proof (get_file_size_category_tiers (str (source_path clip))
                example_state) as H.
  cbn zeta in H. destruct H as (_ & _ & H).
  change (fs example_state !! str (source_path clip))
    with (Some {| st_size := 700000; sha256 := Some "e5f6" |}) in H.
  destruct H as (_ & _ & _ & H & _). exact (H H1 H2).
Defined.

(** [broken.png] cannot be identified: it goes to a no-date folder. *)
Lemma broken_goes_to_no_date :
  elem (lower (suffix (source_path broken))) IMAGE_EXTENSIONS = true /\
  is_Some (fs example_state !! str (source_path broken)) /\
  decode_raises (decoder broken) UnidentifiedImageError /\
  exists st',
    classify "/srv" broken example_state
    = Media image
        (Some (NO_DATE_DIR "/srv" //
                 (get_file_size_category (str (source_path broken))
                    example_state).1)) st' /\
    error_count (counts st') = error_count (counts example_state).
Proof.
  assert (Hext : elem (lower (suffix (source_path broken))) IMAGE_EXTENSIONS
                 = true) by reflexivity.
  assert (Hfile : is_Some (fs example_state !! str (source_path broken)))
    by (eexists; reflexivity).
  assert (Hraise : decode_raises (decoder broken) UnidentifiedImageError)
    by (left; reflexivity).
  split; [exact Hext|]. split; [exact Hfile|]. split; [exact Hraise|].
  refine (proj1 (proj2 (image_target_after_date_read "/srv" broken
                          example_state Hext)) _ Hfile Hraise _).
  discriminate.
Defined.

(** C1 as stated fails on [broken.png]: the decoder cannot identify the
    file, and its target is [no_date/tiny_under_0.5MB], not [errors]. *)
Lemma unidentified_image_goes_to_no_date :
  decoder broken = OpenRaises UnidentifiedImageError /\
  exists st',
    classify "/srv" broken example_state
    = Media image (Some "/srv/sorted_photos/no_date/tiny_under_0.5MB") st' /\
    "/srv/sorted_photos/no_date/tiny_under_0.5MB" <> ERROR_DIR "/srv" /\
    error_count (counts st') = 0.
Proof.
  split; [reflexivity|]. eexists. split; [vm_compute; reflexivity|].
  split; [discriminate | reflexivity].
Qed.

(** *** C8 fails in the script: [img.load()] raises on a truncated JPEG, the
    handler logs the error, and [img.close()] is never reached: the handle
    [Image.open] returned is still open when [get_date_taken] returns. *)
Theorem get_date_taken_leaves_handle_open :
  open_handles example_state = 0 /\
  get_date_taken (source_path truncated) (decoder truncated) example_state
  = (None, logging ERROR (set_handles 1 example_state)).
Proof. split; reflexivity. Qed.

(** Moving [beach.jpg] into the 2021 folder: [beach.jpg] is taken by other
    content, [beach_1.jpg] cannot be read, [beach_2.jpg] is free. *)
Example beach_is_renamed :
  exists st',
    resolve_conflict (loop_fuel example_state) beach ".jpg"
      "/srv/sorted_photos/2021" (Some "a1b2")
      "/srv/sorted_photos/2021/beach.jpg" 1 example_state
    = Some (Some "/srv/sorted_photos/2021/beach_2.jpg", st').
Proof. eexists. vm_compute. reflexivity. Qed.

Lemma beach_conflict_resolved :
  exists k r st',
    resolve_conflict (loop_fuel example_state) beach ".jpg"
      "/srv/sorted_photos/2021" (Some "a1b2")
      "/srv/sorted_photos/2021/beach.jpg" 1 example_state = Some (r, st') /\
    (forall j, j < k ->
       exists_ (candidate beach ".jpg" "/srv/sorted_photos/2021"
                  "/srv/sorted_photos/2021/beach.jpg" j) example_state = true /\
       fingerprint_match (Some "a1b2")
         (candidate beach ".jpg" "/srv/sorted_photos/2021"
            "/srv/sorted_photos/2021/beach.jpg" j) example_state = false) /\
    resolved beach (Some "a1b2")
      (candidate beach ".jpg" "/srv/sorted_photos/2021"
         "/srv/sorted_photos/2021/beach.jpg" k) example_state r st'.
Proof.
  exact (proj2 (proj2 (resolve_conflict_counter beach ".jpg"
                         "/srv/sorted_photos/2021"
                         "/srv/sorted_photos/2021/beach.jpg" (Some "a1b2")
                         example_state))).
Defined.

(** The unreadable [beach_1.jpg] does not stop the search for a name for
    [beach.jpg]: the answer is [beach_2.jpg], and [beach.jpg] is left
    alone. *)
Lemma unreadable_beach_1_is_passed :
  (forall j, j < 1 ->
     exists_ (candidate beach ".jpg" "/srv/sorted_photos/2021"
                "/srv/sorted_photos/2021/beach.jpg" j) example_state = true /\
     fingerprint_match (Some "a1b2")
       (candidate beach ".jpg" "/srv/sorted_photos/2021"
          "/srv/sorted_photos/2021/beach.jpg" j) example_state = false) /\
  exists_ "/srv/sorted_photos/2021/beach_1.jpg" example_state = true /\
  (calculate_hash "/srv/sorted_photos/2021/beach_1.jpg" example_state).1
  = None /\
  exists st',
    resolve_conflict (loop_fuel example_state) beach ".jpg"
      "/srv/sorted_photos/2021" (Some "a1b2")
      "/srv/sorted_photos/2021/beach.jpg" 1 example_state
    = Some (Some "/srv/sorted_photos/2021/beach_2.jpg", st') /\
    fs st' = fs example_state /\ counts st' = counts example_state.
Proof.
  assert (Hbefore : forall j, j < 1 ->
     exists_ (candidate beach ".jpg" "/srv/sorted_photos/2021"
                "/srv/sorted_photos/2021/beach.jpg" j) example_state = true /\
     fingerprint_match (Some "a1b2")
       (candidate beach ".jpg" "/srv/sorted_photos/2021"
          "/srv/sorted_photos/2021/beach.jpg" j) example_state = false).
  { intros j Hj. assert (j = 0) as -> by lia. split; reflexivity. }
  assert (Hex : exists_ "/srv/sorted_photos/2021/beach_1.jpg" example_state
                = true) by reflexivity.
  assert (Hhash : (calculate_hash "/srv/sorted_photos/2021/beach_1.jpg"
                     example_state).1 = None) by reflexivity.
  split; [exact Hbefore|]. split; [exact Hex|]. split; [exact Hhash|].
  destruct (unreadable_existing_file_is_renamed_around beach ".jpg"
              "/srv/sorted_photos/2021" "/srv/sorted_photos/2021/beach.jpg"
              (Some "a1b2") example_state 1 Hbefore Hex Hhash)
    as (k' & r & st' & _ & _ & Hrun & _ & Hcases & Hnext).
  assert (k' = 2) as -> by (apply Hnext; reflexivity).
  exists st'.
  destruct Hcases as [(-> & _ & Hfs & Hc) | (_ & nd & h & Hnd & _)].
  - split; [exact Hrun|]. split; [exact Hfs | exact Hc].
  - discriminate Hnd.
Defined.

(** C3 as stated fails on [party.heic]: the HEIF plugin gives no EXIF data,
    so the photo is bound for a no-date folder, and the one file is counted
    as a no-date file and as converted (and not as moved). *)
Lemma converted_heic_is_counted_twice :
  exists st',
    process_file "/srv" party_heif example_state = Done st' /\
    fs st' !! "/srv/sorted_photos/no_date/large_2-5MB/party.jpg"
    = Some {| st_size := 2048; sha256 := Some "9f2c" |} /\
    no_date_count (counts st') = 1 /\
    heic_converted_count (counts st') = 1 /\
    moved_count (counts st') = 0 /\
    total (counts st') = total (counts example_state) + 2.
Proof.
  eexists. split; [vm_compute; reflexivity|]. repeat split; reflexivity.
Qed.



(** A denied move of [clip.mp4] is counted and the clip stays. *)
Lemma clip_stays_after_permission_error :
  try_body "/srv" (with_move_exn (OSError PermissionError) clip) example_state
  = Raised (OSError PermissionError)
      (state_of (try_body "/srv" (with_move_exn (OSError PermissionError) clip)
                   example_state)) /\
  process_file "/srv" (with_move_exn (OSError PermissionError) clip)
    example_state
  = Done (incr_error (logging ERROR
            (state_of (try_body "/srv"
                         (with_move_exn (OSError PermissionError) clip)
                         example_state)))) /\
  fs (state_of (try_body "/srv" (with_move_exn (OSError PermissionError) clip)
                  example_state)) !! "/srv/unsorted_photos/clip.mp4"
  = fs example_state !! "/srv/unsorted_photos/clip.mp4" /\
  left_behind "/srv/unsorted_photos/clip.mp4" (OSError PermissionError)
    (fs example_state)
    (fs (state_of (try_body "/srv"
                     (with_move_exn (OSError PermissionError) clip)
                     example_state))).
Proof.
  assert (H : try_body "/srv" (with_move_exn (OSError PermissionError) clip)
                example_state
              = Raised (OSError PermissionError)
                  (state_of (try_body "/srv"
                               (with_move_exn (OSError PermissionError) clip)
                               example_state)))
    by (vm_compute; reflexivity).
  split; [exact H|].
  exact (proj1 (error_outcomes_and_relocation "/srv"
                  (with_move_exn (OSError PermissionError) clip))
           example_state _ H).
Defined.

(** The same when the move is denied at its last step, the removal of the
    source: the clip stays, and its copy stays in the no-date folder, which
    nothing records. *)
Example clip_copy_is_left_behind :
  exists st',
    process_file "/srv" clip_in_locked_folder example_state = Done st' /\
    error_count (counts st') = 1 /\
    fs st' = <["/srv/sorted_photos/no_date/small_0.5-1MB/clip.mp4"
               := {| st_size := 700000; sha256 := Some "e5f6" |}]>
               (fs example_state) /\
    hashes_in_destination st' !! "/srv/sorted_photos/no_date/small_0.5-1MB"
    = Some ∅.
Proof.
  eexists. split; [vm_compute; reflexivity|]. split; [reflexivity|].
  split; vm_compute; reflexivity.
Qed.

(** C7 as stated fails on [clip.mp4] when the move is denied: the error is
    counted, the file still exists at its source, and it is not moved into
    the errors folder. *)
Lemma denied_move_leaves_file_at_source :
  exists st',
    process_file "/srv" (with_move_exn (OSError PermissionError) clip)
      example_state = Done st' /\
    error_count (counts st') = 1 /\
    is_Some (fs st' !! "/srv/unsorted_photos/clip.mp4") /\
    fs st' !! "/srv/sorted_photos/errors/clip.mp4" = None /\
    fs st' = fs example_state.
Proof.
  eexists. split; [vm_compute; reflexivity|]. split; [reflexivity|].
  split; [eexists; vm_compute; reflexivity|]. split; reflexivity.
Qed.

(** [beach_copy.jpg] has the content of [beach.jpg], placed before it in the
    2021 folder: the copy is deleted and nothing else changes. *)
Lemma beach_copy_is_dropped :
  "a1b2" <> "" /\
  classify "/srv" beach example_state
  = Media image (Some "/srv/sorted_photos/2021")
      (classified_state (classify "/srv" beach example_state)) /\
  (calculate_hash (str (source_path beach))
     (classified_state (classify "/srv" beach example_state))).1
  = Some "a1b2" /\
  process_file "/srv" beach example_state
  = Done (state_of (process_file "/srv" beach example_state)) /\
  mkdir_exn beach_copy "/srv/sorted_photos/2021" = None /\
  recorded
    (hashes_in_destination (state_of (process_file "/srv" beach example_state)))
    "/srv/sorted_photos/2021" (Some "a1b2") /\
  exists st3,
    process_file "/srv" beach_copy
      (state_of (process_file "/srv" beach example_state)) = Done st3 /\
    (forall p, p <> str (source_path beach_copy) ->
       fs st3 !! p
       = fs (state_of (process_file "/srv" beach example_state)) !! p) /\
    (remove_denied beach_copy = false ->
     fs st3 !! str (source_path beach_copy) = None /\
     duplicate_deleted_count (counts st3)
     = S (duplicate_deleted_count
            (counts (state_of (process_file "/srv" beach example_state))))) /\
    (remove_denied beach_copy = true ->
     fs st3 = fs (state_of (process_file "/srv" beach example_state)) /\
     duplicate_deleted_count (counts st3)
     = duplicate_deleted_count
         (counts (state_of (process_file "/srv" beach example_state))) /\
     error_count (counts (state_of (process_file "/srv" beach example_state)))
     < error_count (counts st3)).
Proof.
  set (st1 := state_of (process_file "/srv" beach example_state)).
  set (c1 := classified_state (classify "/srv" beach example_state)).
  assert (Hh : "a1b2" <> "") by discriminate.
  assert (Hcl1 : classify "/srv" beach example_state
                 = Media image (Some "/srv/sorted_photos/2021") c1)
    by (vm_compute; reflexivity).
  assert (Hhash1 : (calculate_hash (str (source_path beach)) c1).1 = Some "a1b2")
    by (vm_compute; reflexivity).
  assert (Hproc1 : process_file "/srv" beach example_state = Done st1)
    by (vm_compute; reflexivity).
  assert (Hmk : mkdir_exn beach_copy "/srv/sorted_photos/2021" = None)
    by reflexivity.
  split; [exact Hh|]. split; [exact Hcl1|]. split; [exact Hhash1|].
  split; [exact Hproc1|]. split; [exact Hmk|].
  refine (duplicate_in_run_is_not_placed "/srv" beach beach_copy [] example_state
            st1 st1 c1 (classified_state (classify "/srv" beach_copy st1))
            image image "/srv/sorted_photos/2021" "a1b2"
            Hh Hcl1 Hhash1 Hproc1 _ _ _ _ _ _ Hmk).
  - vm_compute. reflexivity.
  - exists "/srv/sorted_photos/2021/beach_2.jpg". split.
    + vm_compute. reflexivity.
    + eexists. vm_compute. reflexivity.
  - reflexivity.
  - vm_compute. reflexivity.
  - vm_compute. reflexivity.
  - vm_compute. reflexivity.
Defined.

(** C2 as stated fails when the copy cannot be deleted: [beach.jpg] is
    placed, [beach_copy.jpg] has the same digest and the same target folder,
    yet it is still at its source after the run and is counted as an error,
    not as a deleted duplicate. *)
Lemma undeletable_duplicate_stays :
  (calculate_hash (str (source_path beach)) example_state).1
  = (calculate_hash (str (source_path beach_copy)) example_state).1 /\
  exists c1 c2 st',
    classify "/srv" beach example_state
    = Media image (Some "/srv/sorted_photos/2021") c1 /\
    classify "/srv" (with_remove_denied beach_copy) example_state
    = Media image (Some "/srv/sorted_photos/2021") c2 /\
    walk "/srv" [beach; with_remove_denied beach_copy] example_state
    = Done st' /\
    fs st' !! "/srv/sorted_photos/2021/beach_2.jpg"
    = Some {| st_size := 300000; sha256 := Some "a1b2" |} /\
    fs st' !! "/srv/unsorted_photos/beach_copy.jpg"
    = Some {| st_size := 300000; sha256 := Some "a1b2" |} /\
    duplicate_deleted_count (counts st') = 0 /\
    error_count (counts st') = 1.
Proof.
  split; [reflexivity|]. eexists _, _, _.
  split; [vm_compute; reflexivity|]. split; [vm_compute; reflexivity|].
  split; [vm_compute; reflexivity|]. repeat split; reflexivity.
Qed.

(** ** The further properties on the example files *)

(** [beach.jpg] lies in [/srv/unsorted_photos]: it is not skipped. *)
Lemma beach_is_not_skipped :
  parent (source_path beach) = SOURCE_DIR "/srv" /\
  in_parents (DEST_DIR "/srv") (source_path beach) = false.
Proof.
  assert (H : parent (source_path beach) = SOURCE_DIR "/srv") by reflexivity.
  split; [exact H|].
  exact (walked_file_is_never_skipped "/srv" (source_path beach) (or_introl H)).
Defined.

(** [notes.txt] is deleted. *)
Lemma notes_are_deleted :
  in_parents (DEST_DIR "/srv") (source_path notes) = false /\
  is_Some (fs example_state_2 !! str (source_path notes)) /\
  process_file "/srv" notes example_state_2
  = Done (logging INFO
            (incr_deleted_non_media
               (set_fs (delete (str (source_path notes)) (fs example_state_2))
                  example_state_2))).
Proof.
  assert (Hpar : in_parents (DEST_DIR "/srv") (source_path notes) = false)
    by reflexivity.
  assert (Hfile : is_Some (fs example_state_2 !! str (source_path notes)))
    by (eexists; reflexivity).
  split; [exact Hpar|]. split; [exact Hfile|].
  exact (proj1 (non_media_file_is_deleted "/srv" notes example_state_2 Hpar
                  eq_refl eq_refl eq_refl) Hfile eq_refl).
Defined.

(** [clip.mp4] goes to [no_date/small_0.5-1MB] without a look at it. *)
Lemma clip_is_not_dated :
  elem (lower (suffix (source_path clip))) VIDEO_EXTENSIONS = true /\
  classify "/srv" clip example_state
  = Media video
      (Some (NO_DATE_DIR "/srv" //
               (get_file_size_category (str (source_path clip))
                  example_state).1))
      (logging INFO
         (incr_no_date
            (get_file_size_category (str (source_path clip))
               example_state).2)).
Proof.
  assert (H : elem (lower (suffix (source_path clip))) VIDEO_EXTENSIONS = true)
    by reflexivity.
  split; [exact H|].
  exact (proj1 (video_is_never_dated "/srv" clip example_state H)).
Defined.

(** [get_date_taken] on a video does nothing. *)
Lemma clip_has_no_date :
  elem (lower (suffix (source_path clip))) IMAGE_EXTENSIONS = false /\
  get_date_taken (source_path clip) (decoder clip) example_state
  = (None, example_state).
Proof.
  assert (H : elem (lower (suffix (source_path clip))) IMAGE_EXTENSIONS = false)
    by reflexivity.
  split; [exact H|].
  exact (proj1 (get_date_taken_answers (source_path clip) (decoder clip)
                  example_state) H).
Defined.

(** [party.heic] has 3000000 bytes: large. *)
Lemma party_size_in_bytes :
  fs example_state !! str (source_path party)
  = Some {| st_size := 3000000; sha256 := Some "c3d4" |} /\
  get_file_size_category (str (source_path party)) example_state
  = ("large_2-5MB", example_state).
Proof.
  assert (H : fs example_state !! str (source_path party)
              = Some {| st_size := 3000000; sha256 := Some "c3d4" |})
    by reflexivity.
  split; [exact H|].
  exact (get_file_size_category_bytes (str (source_path party)) _
           example_state H).
Defined.


(** [party.heic] becomes [2021/party.jpg]; the digest of the HEIC file is
    what is recorded. *)
Lemma party_is_converted :
  fs example_state !! str (source_path party)
  = Some {| st_size := 3000000; sha256 := Some "c3d4" |} /\
  fs example_state !! "/srv/sorted_photos/2021/party.jpg" = None /\
  exists st',
    convert_heic "/srv" party "/srv/sorted_photos/2021" (Some "c3d4")
      example_state = Done st' /\
    fs st' = delete (str (source_path party))
               (<["/srv/sorted_photos/2021/party.jpg"
                  := {| st_size := 2048; sha256 := Some "9f2c" |}]>
                  (fs example_state)) /\
    hashes_in_destination st'
    = setdefault_add "/srv/sorted_photos/2021" (Some "c3d4")
        (hashes_in_destination example_state).
Proof.
  assert (Hnd : fs example_state !! str (source_path party)
                = Some {| st_size := 3000000; sha256 := Some "c3d4" |})
    by reflexivity.
  assert (Hfree : fs example_state !! "/srv/sorted_photos/2021/party.jpg" = None)
    by reflexivity.
  split; [exact Hnd|]. split; [exact Hfree|].
  destruct (heic_is_converted "/srv" party "/srv/sorted_photos/2021"
              (Some "c3d4") example_state _ _ Hnd Hfree eq_refl)
    as (st' & H1 & H2 & _ & _ & H5).
  exists st'. split; [exact H1|]. split; [exact H2 | exact H5].
Defined.

(** [locked.jpg] cannot be hashed: it goes to the errors folder. *)
Lemma locked_goes_to_errors :
  fs example_state_2 !! str (source_path locked)
  = Some {| st_size := 4000000; sha256 := None |} /\
  exists k st',
    action "/srv" locked image ".jpg"
      (Some "/srv/sorted_photos/no_date/large_2-5MB") example_state_2
    = Done st' /\
    fs example_state_2 !! error_candidate "/srv" locked k = None /\
    fs st' = <[error_candidate "/srv" locked k
               := {| st_size := 4000000; sha256 := None |}]>
               (delete (str (source_path locked)) (fs example_state_2)) /\
    counts st' = counts (incr_error example_state_2).
Proof.
  assert (Hnd : fs example_state_2 !! str (source_path locked)
                = Some {| st_size := 4000000; sha256 := None |})
    by reflexivity.
  split; [exact Hnd|].
  destruct (unhashable_file_goes_to_errors "/srv" locked image ".jpg"
              "/srv/sorted_photos/no_date/large_2-5MB" _ example_state_2
              eq_refl eq_refl eq_refl (fun _ => eq_refl) Hnd eq_refl)
    as (k & st' & H1 & H2 & _ & H4 & H5 & _).
  exists k, st'. auto.
Defined.

(** The two files already in the 2021 folder survive a run over
    [beach.jpg] and [party.heic]. *)
Lemma old_beach_survives :
  fs example_state !! "/srv/sorted_photos/2021/beach.jpg"
  = Some {| st_size := 123456; sha256 := Some "ffff" |} /\
  fs (state_of (walk "/srv" [beach; party] example_state))
    !! "/srv/sorted_photos/2021/beach.jpg"
  = Some {| st_size := 123456; sha256 := Some "ffff" |}.
Proof.
  assert (Hx : fs example_state !! "/srv/sorted_photos/2021/beach.jpg"
               = Some {| st_size := 123456; sha256 := Some "ffff" |})
    by reflexivity.
  split; [exact Hx|].
  pose proof (run_keeps_other_files "/srv" [beach; party] example_state) as H.
  assert (Hw : walk "/srv" [beach; party] example_state
               = Done (state_of (walk "/srv" [beach; party] example_state)))
    by (vm_compute; reflexivity).
  rewrite Hw in H. apply H; [|exact Hx].
  intros it' [-> | [-> | []%elem_of_nil]%elem_of_cons]%elem_of_cons;
    intros [Hsrc | (_ & _ & Herr)]; discriminate.
Defined.



(** [backup.zip] is counted as an archive although the archives folder
    cannot be created and the file stays where it is. *)
Lemma unmoved_backup_is_counted :
  in_parents (DEST_DIR "/srv") (source_path backup) = false /\
  archive_moved_count
    (counts (state_of (process_file "/srv"
                         (with_mkdir_exn (OSError PermissionError) backup)
                         example_state)))
  = S (archive_moved_count (counts example_state)).
Proof.
  assert (Hpar : in_parents (DEST_DIR "/srv") (source_path backup) = false)
    by reflexivity.
  split; [exact Hpar|].
  pose proof (archive_is_counted_when_seen "/srv"
                (with_mkdir_exn (OSError PermissionError) backup)
                example_state Hpar eq_refl) as H.
  destruct (process_file "/srv"
              (with_mkdir_exn (OSError PermissionError) backup) example_state);
    [exact H | exact H | destruct H].
Defined.
